(** * Threat-modeling table: the click handlers of [script.js]

    A shallow embedding of the two event handlers of [script.js] (the
    "add row" button and the "submit to AI" button) over an explicit
    model of the part of the page they read and write: the attack-surface
    table, the error region and the requests handed to [fetch].

    Strings are sequences of 8-bit code units (the Latin-1 range of the
    UTF-16 code units of a JavaScript string).  JSON numbers are the
    integral ones of the safe range, which print in plain decimal. *)

From Stdlib Require Import String Ascii List ZArith Lia Bool.
From stdpp Require Import base list strings pretty.
Import ListNotations.

Set Warnings "-register-all".
Local Open Scope string_scope.
Local Open Scope list_scope.
#[local] Arguments String.append _ _ : simpl nomatch.

(** ** Strings *)

Module Str.

(** The line feed ['\n'] and the double quote, as one-character strings. *)
Definition LF : string := String "010"%char EmptyString.
Definition DQ : string := String "034"%char EmptyString.

(** [Array.prototype.join] on an array of strings. *)
Definition join (sep : string) (l : list string) : string := String.concat sep l.

(** WhiteSpace and LineTerminator code units below 256: TAB, LF, VT, FF,
    CR, SP and NBSP. *)
Definition is_white_space (c : ascii) : bool :=
  let n := nat_of_ascii c in
  (n =? 9)%nat || (n =? 10)%nat || (n =? 11)%nat || (n =? 12)%nat
  || (n =? 13)%nat || (n =? 32)%nat || (n =? 160)%nat.

Fixpoint trimStart (s : string) : string :=
  match s with
  | EmptyString => EmptyString
  | String c s' => if is_white_space c then trimStart s' else s
  end.

Fixpoint trimEnd (s : string) : string :=
  match s with
  | EmptyString => EmptyString
  | String c s' =>
      match trimEnd s' with
      | EmptyString => if is_white_space c then EmptyString else String c EmptyString
      | r => String c r
      end
  end.

(** [String.prototype.trim]. *)
Definition trim (s : string) : string := trimEnd (trimStart s).

(** Every code unit of [s] is white space. *)
Fixpoint all_white_space (s : string) : bool :=
  match s with
  | EmptyString => true
  | String c s' => is_white_space c && all_white_space s'
  end.

Definition first_char (s : string) : option ascii :=
  match s with EmptyString => None | String c _ => Some c end.

Fixpoint last_char (s : string) : option ascii :=
  match s with
  | EmptyString => None
  | String c EmptyString => Some c
  | String _ s' => last_char s'
  end.

Definition is_empty (s : string) : bool :=
  match s with EmptyString => true | _ => false end.

End Str.

(** ** JavaScript values obtained from JSON *)

Module JS.

(** [VNumber z] stands for an integral number in the safe range,
    [|z| < 2^53], where the host prints it in plain decimal. *)
Inductive value : Type :=
  | VUndefined
  | VNull
  | VBool (b : bool)
  | VNumber (z : Z)
  | VString (s : string)
  | VArray (elems : list value)
  | VObject (props : list (string * value)).

(** Errors raised by the host rather than by the script; the wording of
    their [message] is the host's. *)
Inductive host_error : Type :=
  | TypeError
  | SyntaxError
  | IndexSizeError
  | NetworkError.

(** What a [throw] carries: [new Error(message)] of the script, or an
    error of the host. *)
Inductive exn : Type :=
  | Error (message : string)
  | HostError (e : host_error).

(** A completion: normal with a value, or abrupt with a thrown error. *)
Inductive completion (A : Type) : Type :=
  | Normal (a : A)
  | Throw (e : exn).
Arguments Normal {A} a.
Arguments Throw {A} e.

Fixpoint own_property (props : list (string * value)) (key : string) : option value :=
  match props with
  | [] => None
  | (k, v) :: props' => if String.eqb k key then Some v else own_property props' key
  end.

(** [ToString], as used for property keys, [new Error(v)] and the
    elements of [join].  An object decoded from JSON prints as
    [[object Object]] unless it has an own [toString], which is then not
    callable and makes the conversion throw a [TypeError]; an array
    prints as its [join(",")]. *)
Fixpoint ToString (v : value) : completion string :=
  match v with
  | VUndefined => Normal "undefined"
  | VNull => Normal "null"
  | VBool true => Normal "true"
  | VBool false => Normal "false"
  | VNumber z => Normal (pretty z)
  | VString s => Normal s
  | VArray elems =>
      match
        (fix elements (l : list value) : completion (list string) :=
           match l with
           | [] => Normal []
           | x :: l' =>
               match match x with
                     | VUndefined | VNull => Normal EmptyString
                     | _ => ToString x
                     end with
               | Throw e => Throw e
               | Normal s =>
                   match elements l' with
                   | Throw e => Throw e
                   | Normal ss => Normal (s :: ss)
                   end
               end
           end) elems
      with
      | Throw e => Throw e
      | Normal ss => Normal (Str.join "," ss)
      end
  | VObject props =>
      match own_property props "toString" with
      | Some _ => Throw (HostError TypeError)
      | None => Normal "[object Object]"
      end
  end.

(** One element of [Array.prototype.join]: [undefined] and [null] give
    the empty string. *)
Definition join_element (v : value) : completion string :=
  match v with
  | VUndefined | VNull => Normal EmptyString
  | _ => ToString v
  end.

(** The strings of the elements of an array, up to the first
    conversion that throws. *)
Fixpoint join_elements (elems : list value) : completion (list string) :=
  match elems with
  | [] => Normal []
  | x :: elems' =>
      match join_element x with
      | Throw e => Throw e
      | Normal s =>
          match join_elements elems' with
          | Throw e => Throw e
          | Normal ss => Normal (s :: ss)
          end
      end
  end.

(** [arr.join(sep)] on an array of values. *)
Definition Array_join (sep : string) (elems : list value) : completion string :=
  match join_elements elems with
  | Throw e => Throw e
  | Normal ss => Normal (Str.join sep ss)
  end.

Definition ToBoolean (v : value) : bool :=
  match v with
  | VUndefined | VNull => false
  | VBool b => b
  | VNumber z => negb (z =? 0)%Z
  | VString s => negb (Str.is_empty s)
  | VArray _ | VObject _ => true
  end.

(** The array index a property key denotes among [len] elements: the
    [i < len] whose decimal form is the key. *)
Definition array_index (len : nat) (key : string) : option nat :=
  find (fun i => String.eqb (pretty i) key) (seq 0 len).

(** [v[key]] / [v.key] for the keys the script reads ([error], [message],
    [output], [content], [text], [index], [threats], [type],
    [description] and [0]): a [TypeError] on [undefined] and [null], the
    own property of an object, the indexed element of an array or
    string, [undefined] otherwise. *)
Definition Get (v : value) (key : string) : completion value :=
  match v with
  | VUndefined | VNull => Throw (HostError TypeError)
  | VObject props => Normal (default VUndefined (own_property props key))
  | VArray elems =>
      Normal (default VUndefined (i ← array_index (length elems) key; elems !! i))
  | VString s =>
      Normal (default VUndefined
                (i ← array_index (String.length s) key;
                 c ← String.get i s;
                 Some (VString (String c EmptyString))))
  | VBool _ | VNumber _ => Normal VUndefined
  end.

End JS.

(** ** The page: table, cells and the error region *)

Module DOM.
Import JS.

(** A table cell: whether it carries [contenteditable="true"], and its
    [innerText]. *)
Record cell : Type := Cell { contenteditable : bool; innerText : string }.

(** A table row is the sequence [tr.cells]. *)
Definition row : Type := list cell.

(** [table.tHead.rows[0]] and [table.tBodies[0].rows]. *)
Record table : Type := Table { tHead : row; tBody : list row }.

(** The text shown in the error region: a string of the script, or the
    [message] of an error of the host. *)
Inductive text : Type :=
  | Text (s : string)
  | HostText (e : host_error).

Definition message (e : exn) : text :=
  match e with
  | Error m => Text m
  | HostError h => HostText h
  end.

Record page : Type := Page { attack_table : table; errorDiv : text }.

Definition new_cell : cell := Cell false EmptyString.
Definition editable_cell : cell := Cell true EmptyString.

(** [tr.insertCell()]: a new empty cell at the end. *)
Definition insertCell (tr : row) : row := tr ++ [new_cell].

(** [tr.insertCell().setAttribute('contenteditable', 'true')]. *)
Definition insertCell_editable (tr : row) : row := tr ++ [editable_cell].

(** [tr.insertCell(i)] followed by an assignment of [s] to the
    [innerText] of the cell returned; an index beyond the number of
    cells is an [IndexSizeError]. *)
Definition insertCell_at (i : nat) (s : string) (tr : row) : completion row :=
  if (i <=? length tr)%nat
  then Normal (take i tr ++ Cell false s :: drop i tr)
  else Throw (HostError IndexSizeError).

(** [tr.cells[j].innerText = s]: a [TypeError] when the row has no cell
    [j]. *)
Definition set_innerText (j : nat) (s : string) (tr : row) : completion row :=
  match tr !! j with
  | None => Throw (HostError TypeError)
  | Some c => Normal (<[j := Cell (contenteditable c) s]> tr)
  end.

End DOM.

(** ** The script *)

Module Script.
Import JS DOM.

Record category : Type := Category { id : string; cat_description : string }.

Definition categories : list category :=
  [ Category "information_leakage" "Exposure of sensitive data via the surface.";
    Category "data_integrity_violation" "Unauthorized modification/destruction of data.";
    Category "control_plane_subversion" "Unauthorized modification/execution on the control plane.";
    Category "denial_of_service" "Degradation or loss of availability.";
    Category "illegitimate_use" "Abuse/misuse of resources beyond intended purpose.";
    Category "entity_spoofing" "Masquerading as another principal/service.";
    Category "forgery" "Fabricating messages/requests accepted as if from a trusted source.";
    Category "bypassing_control" "Circumventing security controls (filtering, validation, authN/Z gates).";
    Category "authorization_violation" "Access beyond assigned permissions.";
    Category "trojan" "Malicious/compromised components introduced via supply chain or artifact.";
    Category "guessing" "Ability to deduce or predict sensitive values (e.g., keys, tokens, identifiers).";
    Category "repudiation" "Denying actions/transactions due to insufficient auditability or tamper-proof logging." ].

(** *** The "add row" button *)

(** [insertRow()] appends an empty row to the body; two editable cells
    are appended to it, and two plain ones when the header has more than
    two cells. *)
Definition add_row (t : table) : table :=
  let row : row := [] in
  let row := insertCell_editable row in
  let row := insertCell_editable row in
  let row :=
    if (2 <? length (tHead t))%nat
    then insertCell (insertCell row)
    else row in
  {| tHead := tHead t; tBody := tBody t ++ [row] |}.

(** *** The "submit" button: up to the call of [fetch] *)

(** An element of [rows]: what the handler keeps of a body row. *)
Record surface_row : Type :=
  SurfaceRow { index : nat; surface : string; description : string }.

(** The callback of [rows.map]: [None] stands for the [TypeError] of
    reading [innerText] of a cell the row does not have. *)
Definition snapshot_row (idx : nat) (tr : row) : option surface_row :=
  c0 ← tr !! 0%nat;
  c1 ← tr !! 1%nat;
  Some {| index := idx;
          surface := Str.trim (innerText c0);
          description := Str.trim (innerText c1) |}.

Definition snapshot (rows : list row) : option (list surface_row) :=
  mapM (fun o => o) (imap snapshot_row rows).

Definition category_line (c : category) : string :=
  id c +:+ ": " +:+ cat_description c.

Definition surface_line (r : surface_row) : string :=
  "#" +:+ pretty (index r) +:+ ": " +:+ surface r +:+ " - " +:+ description r.

(** The text of the template literal before the first substitution. *)
Definition prompt_intro : string :=
  Str.LF +:+
  "You are a threat modeling assistant. For each attack surface below, identify applicable threat categories from this list and provide a brief description. Omit categories that do not apply. Respond with JSON only in the form:" +:+ Str.LF +:+
  "[" +:+ Str.LF +:+
  "  {" +:+ Str.DQ +:+ "index" +:+ Str.DQ +:+ ":0," +:+ Str.DQ +:+ "threats" +:+ Str.DQ +:+ ":[{"
    +:+ Str.DQ +:+ "type" +:+ Str.DQ +:+ ":" +:+ Str.DQ +:+ "<category_id>" +:+ Str.DQ +:+ ","
    +:+ Str.DQ +:+ "description" +:+ Str.DQ +:+ ":" +:+ Str.DQ +:+ "<text>" +:+ Str.DQ +:+ "}]}" +:+ Str.LF +:+
  "]" +:+ Str.LF +:+
  Str.LF +:+
  "Threat Categories:" +:+ Str.LF.

(** The text between the two substitutions. *)
Definition prompt_middle : string :=
  Str.LF +:+ Str.LF +:+ "Attack Surfaces:" +:+ Str.LF.

Definition prompt (rows : list surface_row) : string :=
  prompt_intro
  +:+ Str.join Str.LF (map category_line categories)
  +:+ prompt_middle
  +:+ Str.join Str.LF (map surface_line rows)
  +:+ Str.LF.

(** The argument of [fetch]. *)
Record request : Type :=
  Request { url : string; method : string;
            headers : list (string * string); body : string }.

(** Modelled from the spec: the user-facing inputs of the page, whose
    markup is not part of the sources; the spec lists a credential field
    and an optional endpoint-override field.  The handler reads the
    first one only, by [document.getElementById('api-key').value]. *)
Record inputs : Type :=
  Inputs { api_key_value : string; endpoint_override : option string }.

(** What comes back from the two awaits, [fetch(...)] and [res.json()]:
    a rejection of the first, a rejection of the second (the body is not
    JSON), or [res.ok] and the decoded body. *)
Inductive fetch_outcome : Type :=
  | FetchRejected
  | BodyRejected (ok : bool)
  | Response (ok : bool) (data : value).

(** *** Statements that read and write the table and may throw *)

#[export] Instance completion_ret : MRet completion := fun _ a => Normal a.
#[export] Instance completion_bind : MBind completion := fun _ _ k c =>
  match c with
  | Normal a => k a
  | Throw e => Throw e
  end.

Definition M (A : Type) : Type := table -> completion A * table.

Definition ret {A} (a : A) : M A := fun t => (Normal a, t).
Definition throw {A} (e : exn) : M A := fun t => (Throw e, t).
Definition lift {A} (c : completion A) : M A := fun t => (c, t).
Definition bind {A B} (m : M A) (k : A -> M B) : M B := fun t =>
  match m t with
  | (Normal a, t') => k a t'
  | (Throw e, t') => (Throw e, t')
  end.

Notation "x <~ m ;; k" := (bind m (fun x => k))
  (at level 100, m at next level, k at level 200, right associativity).
Notation "m ;; k" := (bind m (fun _ => k))
  (at level 100, k at level 200, right associativity).

(** [arr.forEach(f)]: the first throw ends the loop. *)
Fixpoint forEach {A} (f : A -> M unit) (l : list A) : M unit :=
  match l with
  | [] => ret tt
  | x :: l' => f x ;; forEach f l'
  end.

(** [arr.map(f)] for a callback without effect on the table. *)
Fixpoint Array_map (f : value -> completion value) (l : list value)
  : completion (list value) :=
  match l with
  | [] => Normal []
  | x :: l' => y ← f x; ys ← Array_map f l'; Normal (y :: ys)
  end.

(** A change of the header row. *)
Definition with_head (f : row -> completion row) : M unit := fun t =>
  match f (tHead t) with
  | Throw e => (Throw e, t)
  | Normal h => (Normal tt, {| tHead := h; tBody := tBody t |})
  end.

(** A change of body row [i]; a [TypeError] when there is no such row. *)
Definition with_row (i : nat) (f : row -> completion row) : M unit := fun t =>
  match tBody t !! i with
  | None => (Throw (HostError TypeError), t)
  | Some tr =>
      match f tr with
      | Throw e => (Throw e, t)
      | Normal tr' => (Normal tt, {| tHead := tHead t; tBody := <[i := tr']> (tBody t) |})
      end
  end.

Section Host.

(** [JSON.parse], with [None] for its [SyntaxError], and
    [JSON.stringify]: functions of the host. *)
Variable JSON_parse : value -> option value.
Variable JSON_stringify : value -> string.

Definition fetch_request (apiKey prompt : string) : request :=
  {| url := "https://api.openai.com/v1/responses";
     method := "POST";
     headers := [ ("Content-Type", "application/json");
                  ("Authorization", "Bearer " +:+ apiKey) ];
     body := JSON_stringify
               (VObject [ ("model", VString "gpt-4o-mini");
                          ("input", VString prompt);
                          ("response_format",
                            VObject [("type", VString "json_object")]) ]) |}.

(** The handler from the click to the call of [fetch].  No request is
    made when the trimmed key is empty, nor when reading the rows throws
    (outside the [try], the error region stays cleared). *)
Definition submit_click (inp : inputs) (p : page) : page * option request :=
  let t := attack_table p in
  let cleared := {| attack_table := t; errorDiv := Text EmptyString |} in
  let apiKey := Str.trim (api_key_value inp) in
  if negb (ToBoolean (VString apiKey))
  then ({| attack_table := t; errorDiv := Text "API key required." |}, None)
  else
    match snapshot (tBody t) with
    | None => (cleared, None)
    | Some rows => (cleared, Some (fetch_request apiKey (prompt rows)))
    end.

(** *** The "submit" button: after the awaits *)

(** [data.error?.message || 'Request failed']. *)
Definition error_message (data : value) : completion value :=
  err ← Get data "error";
  msg ← match err with
        | VUndefined | VNull => Normal VUndefined
        | _ => Get err "message"
        end;
  Normal (if ToBoolean msg then msg else VString "Request failed").

(** [data.output[0].content[0].text]. *)
Definition response_text (data : value) : completion value :=
  output ← Get data "output";
  output0 ← Get output "0";
  content ← Get output0 "content";
  content0 ← Get content "0";
  Get content0 "text".

(** The inner [try]: whatever is thrown becomes the one [Error]. *)
Definition parse_response (data : value) : completion value :=
  match response_text data with
  | Throw _ => Throw (Error "Failed to parse AI response.")
  | Normal payload =>
      match JSON_parse payload with
      | None => Throw (Error "Failed to parse AI response.")
      | Some parsed => Normal parsed
      end
  end.

(** The two output columns, inserted when the header has exactly two
    cells: in the header first, then in each body row. *)
Definition add_output_columns : M unit := fun t =>
  if (length (tHead t) =? 2)%nat
  then
    (with_head (insertCell_at 2 "Threat Type") ;;
     with_head (insertCell_at 3 "Threat Description") ;;
     forEach (fun tr =>
                with_row tr (insertCell_at 2 EmptyString) ;;
                with_row tr (insertCell_at 3 EmptyString))
             (seq 0 (length (tBody t)))) t
  else ret tt t.

(** [item.threats.map(t => t.<field>).join('\n')]. *)
Definition threat_column (field : string) (item : value) : completion string :=
  threats ← Get item "threats";
  match threats with
  | VArray ts => vals ← Array_map (fun t => Get t field) ts;
                 Array_join Str.LF vals
  | _ => Throw (HostError TypeError)
  end.

(** [table.tBodies[0].rows[key]]: the position of the row the key
    denotes, [None] when the collection has no row under that key (the
    rows carry no [id] or [name]; what else the collection answers to,
    [length] or [item], has no [cells]), nor when the key cannot be
    converted. *)
Definition rows_item (rows : list row) (key : value) : option nat :=
  match ToString key with
  | Normal k => array_index (length rows) k
  | Throw _ => None
  end.

(** The callback of [parsed.forEach]; looking up [rows[item.index]]
    first converts the index to a property key, which may throw. *)
Definition apply_item (item : value) : M unit :=
  idx <~ lift (Get item "index") ;;
  lift (ToString idx) ;;
  tr <~ (fun t => (Normal (rows_item (tBody t) idx), t)) ;;
  types <~ lift (threat_column "type" item) ;;
  descs <~ lift (threat_column "description" item) ;;
  match tr with
  | None => throw (HostError TypeError)
  | Some i =>
      with_row i (set_innerText 2 types) ;;
      with_row i (set_innerText 3 descs)
  end.

(** The body of the outer [try], from the first await on. *)
Definition response_try (o : fetch_outcome) : M unit :=
  match o with
  | FetchRejected => throw (HostError NetworkError)
  | BodyRejected _ => throw (HostError SyntaxError)
  | Response ok data =>
      (if negb ok
       then msg <~ lift (error_message data) ;;
            shown <~ lift (ToString msg) ;;
            throw (Error shown)
       else ret tt) ;;
      parsed <~ lift (parse_response data) ;;
      add_output_columns ;;
      match parsed with
      | VArray items => forEach apply_item items
      | _ => throw (HostError TypeError)
      end
  end.

(** The handler after the awaits, with the outer [catch]. *)
Definition submit_response (o : fetch_outcome) (p : page) : page :=
  match response_try o (attack_table p) with
  | (Normal _, t) => {| attack_table := t; errorDiv := errorDiv p |}
  | (Throw err, t) => {| attack_table := t; errorDiv := message err |}
  end.

(** A submission that runs to its end with no other event in between;
    [net] is the endpoint's answer.  The second component lists the
    requests made. *)
Definition submit (inp : inputs) (net : request -> fetch_outcome) (p : page)
  : page * list request :=
  match submit_click inp p with
  | (p', None) => (p', [])
  | (p', Some req) => (submit_response (net req) p', [req])
  end.

(** *** Events of the page *)

Inductive event : Type :=
  | AddRow
  | SubmitClick (inp : inputs)
  | SubmitResponse (o : fetch_outcome).

Definition step (e : event) (p : page) : page :=
  match e with
  | AddRow => {| attack_table := add_row (attack_table p); errorDiv := errorDiv p |}
  | SubmitClick inp => fst (submit_click inp p)
  | SubmitResponse o => submit_response o p
  end.

Definition run (es : list event) (p : page) : page :=
  fold_left (fun p e => step e p) es p.

End Host.

End Script.

(** ** Predicates used in the statements *)

Module Spec.
Import Str JS DOM Script.

(** [u] is [s] without a leading and a trailing run of white space, and
    [u] neither starts nor ends with white space. *)
Definition trimmed_of (s u : string) : Prop :=
  (exists pre post,
      all_white_space pre = true /\ all_white_space post = true /\
      s = pre +:+ u +:+ post) /\
  (forall c, first_char u = Some c -> is_white_space c = false) /\
  (forall c, last_char u = Some c -> is_white_space c = false).

(** Every body row has as many cells as the header row. *)
Definition regular (t : table) : bool :=
  forallb (fun tr => (length tr =? length (tHead t))%nat) (tBody t).

(** The header has two cells, or four. *)
Definition two_or_four (t : table) : bool :=
  (length (tHead t) =? 2)%nat || (length (tHead t) =? 4)%nat.

(** The answer is a transport failure: a rejected [fetch], a body that
    is not JSON, or a status outside the success range. *)
Definition transport_error (o : fetch_outcome) : bool :=
  match o with
  | Response true _ => false
  | _ => true
  end.

(** The answer has a success status and its text payload is absent or
    does not parse. *)
Definition malformed_response (JSON_parse : value -> option value)
    (o : fetch_outcome) : bool :=
  match o with
  | Response true data =>
      match parse_response JSON_parse data with
      | Throw _ => true
      | Normal _ => false
      end
  | _ => false
  end.

(** The event is an answer with a success status whose payload parses. *)
Definition payload_parsed (JSON_parse : value -> option value) (e : event) : bool :=
  match e with
  | SubmitResponse o => negb (transport_error o) && negb (malformed_response JSON_parse o)
  | _ => false
  end.

(** The body row an entry of the response refers to, among [n] rows. *)
Definition item_row (n : nat) (item : value) : option nat :=
  match Get item "index" with
  | Normal idx =>
      match ToString idx with
      | Normal key => array_index n key
      | Throw _ => None
      end
  | Throw _ => None
  end.

(** The last entry of the response that refers to row [i]. *)
Definition last_entry_for (n i : nat) (items : list value) : option value :=
  last (filter (fun item => item_row n item = Some i) items).

(** A threat [{"type": ty, "description": d}] and an entry
    [{"index": i, "threats": [...]}] of a response, decoded. *)
Definition threat_object (td : string * string) : value :=
  VObject [("type", VString (fst td)); ("description", VString (snd td))].

Definition response_entry (i : Z) (threats : list (string * string)) : value :=
  VObject [("index", VNumber i); ("threats", VArray (map threat_object threats))].

(** A row with the two output cells appended, and the header with the
    two output headings appended. *)
Definition widen (tr : row) : row := tr ++ [new_cell; new_cell].

Definition output_header (h : row) : row :=
  h ++ [Cell false "Threat Type"; Cell false "Threat Description"].

(** The table once the output columns are there: widened when the
    header has exactly two cells, as it is otherwise. *)
Definition with_columns (t : table) : table :=
  if (length (tHead t) =? 2)%nat
  then {| tHead := output_header (tHead t); tBody := map widen (tBody t) |}
  else t.

(** The page after a submission refused for want of a credential. *)
Definition missing_credential (p : page) : page :=
  {| attack_table := attack_table p; errorDiv := Text "API key required." |}.

(** The row the "add row" button creates under header [h]. *)
Definition blank_row (h : row) : row :=
  [editable_cell; editable_cell]
  ++ (if (2 <? length h)%nat then [new_cell; new_cell] else []).

(** The twelve lines of the taxonomy, as the prompt shows them. *)
Definition taxonomy_lines : list string :=
  [ "information_leakage: Exposure of sensitive data via the surface.";
    "data_integrity_violation: Unauthorized modification/destruction of data.";
    "control_plane_subversion: Unauthorized modification/execution on the control plane.";
    "denial_of_service: Degradation or loss of availability.";
    "illegitimate_use: Abuse/misuse of resources beyond intended purpose.";
    "entity_spoofing: Masquerading as another principal/service.";
    "forgery: Fabricating messages/requests accepted as if from a trusted source.";
    "bypassing_control: Circumventing security controls (filtering, validation, authN/Z gates).";
    "authorization_violation: Access beyond assigned permissions.";
    "trojan: Malicious/compromised components introduced via supply chain or artifact.";
    "guessing: Ability to deduce or predict sensitive values (e.g., keys, tokens, identifiers).";
    "repudiation: Denying actions/transactions due to insufficient auditability or tamper-proof logging." ].

(** [block] occurs in [s], somewhere after an occurrence of [before]. *)
Definition occurs_after (before block s : string) : Prop :=
  exists pre mid post, s = pre +:+ before +:+ mid +:+ block +:+ post.

(** The [innerText] of cell [j] of a row, when the row has that cell. *)
Definition cell_text (j : nat) (tr : row) : option string :=
  innerText <$> tr !! j.

(** A cell with its text replaced, and a row with the texts of its two
    threat cells replaced. *)
Definition set_text (s : string) (c : cell) : cell :=
  Cell (contenteditable c) s.

Definition write_threats (types descs : string) (tr : row) : row :=
  alter (set_text descs) 3%nat (alter (set_text types) 2%nat tr).

(** What an entry does among [n] rows when it can be applied: the row
    it refers to and the two texts it writes there. *)
Definition entry_effect (n : nat) (item : value) : option (nat * (string * string)) :=
  match item_row n item, threat_column "type" item,
        threat_column "description" item with
  | Some i, Normal types, Normal descs => Some (i, (types, descs))
  | _, _, _ => None
  end.

Definition apply_effect (rows : list row) (eff : nat * (string * string)) : list row :=
  alter (write_threats (fst (snd eff)) (snd (snd eff))) (fst eff) rows.

(** The effects of the entries up to the first one that cannot be
    applied, and whether there is none such. *)
Fixpoint applied_effects (n : nat) (items : list value)
  : list (nat * (string * string)) :=
  match items with
  | [] => []
  | item :: items' =>
      match entry_effect n item with
      | Some eff => eff :: applied_effects n items'
      | None => []
      end
  end.

Definition all_apply (n : nat) (items : list value) : bool :=
  forallb (fun item => bool_decide (is_Some (entry_effect n item))) items.

(** The texts last written to row [j] by a sequence of effects. *)
Definition last_effect (j : nat) (effs : list (nat * (string * string)))
  : option (string * string) :=
  snd <$> last (filter (fun eff => fst eff = j) effs).

(** The number of clicks on "add row" among the events. *)
Definition add_row_count (es : list event) : nat :=
  length (List.filter (fun e => match e with AddRow => true | _ => false end) es).

(** A row has fewer than two cells. *)
Definition short_row (tr : row) : bool := (length tr <? 2)%nat.

(** The trimmed texts of the first two cells of each row. *)
Definition trimmed_inputs (rows : list row) : list (list string) :=
  map (fun tr => map (fun c => trim (innerText c)) (take 2 tr)) rows.

(** The table with its columns after the entries of a response were
    applied up to the first that cannot be. *)
Definition after_entries (t : table) (items : list value) : table :=
  {| tHead := tHead (with_columns t);
     tBody := foldl apply_effect (tBody (with_columns t))
                (applied_effects (length (tBody t)) items) |}.

(** The text of cell [j] of a row, empty when the row has no such
    cell. *)
Definition text_of (j : nat) (tr : row) : string :=
  default EmptyString (cell_text j tr).

(** What a submission keeps of the body row at position [i], and the
    line the prompt shows for it, [#<index>: <surface> - <description>],
    both with the trimmed texts of the first two cells. *)
Definition kept_row (i : nat) (tr : row) : surface_row :=
  SurfaceRow i (trim (text_of 0 tr)) (trim (text_of 1 tr)).

Definition row_line (i : nat) (tr : row) : string :=
  "#" +:+ pretty i +:+ ": " +:+ trim (text_of 0 tr)
      +:+ " - " +:+ trim (text_of 1 tr).

(** The text of the error region after a click. *)
Definition click_text (inp : inputs) : text :=
  if is_empty (trim (api_key_value inp))
  then Text "API key required." else Text EmptyString.

(** From page [p] on, the events hold no click on "submit" and no
    answer that ends in a throw. *)
Fixpoint quiet (JSON_parse : value -> option value)
    (JSON_stringify : value -> string) (es : list event) (p : page) : bool :=
  match es with
  | [] => true
  | e :: es' =>
      match e with
      | AddRow => true
      | SubmitClick _ => false
      | SubmitResponse o =>
          match fst (response_try JSON_parse o (attack_table p)) with
          | Normal _ => true
          | Throw _ => false
          end
      end && quiet JSON_parse JSON_stringify es'
               (step JSON_parse JSON_stringify e p)
  end.

End Spec.

(** ** Concrete pages and responses *)

Module Examples.
Import JS DOM Script.

(** The response text
    [[{"index":0,"threats":[{"type":"forgery","description":"x"}]}]]. *)
Definition forgery_text : string :=
  "[{" +:+ Str.DQ +:+ "index" +:+ Str.DQ +:+ ":0," +:+ Str.DQ +:+ "threats" +:+ Str.DQ +:+ ":[{"
  +:+ Str.DQ +:+ "type" +:+ Str.DQ +:+ ":" +:+ Str.DQ +:+ "forgery" +:+ Str.DQ +:+ ","
  +:+ Str.DQ +:+ "description" +:+ Str.DQ +:+ ":" +:+ Str.DQ +:+ "x" +:+ Str.DQ +:+ "}]}]".

(** The entry [{"index": i, "threats": [{"type": ty, "description": d}]}]. *)
Definition entry (i : Z) (ty d : string) : value :=
  Spec.response_entry i [(ty, d)].

(** The text [[{"index":5,"threats":[]},{"index":0,"threats":[...]}]]:
    an entry for a row that does not exist, then one for row 0. *)
Definition stray_text : string :=
  "[{" +:+ Str.DQ +:+ "index" +:+ Str.DQ +:+ ":5," +:+ Str.DQ +:+ "threats" +:+ Str.DQ +:+ ":[]},{"
  +:+ Str.DQ +:+ "index" +:+ Str.DQ +:+ ":0," +:+ Str.DQ +:+ "threats" +:+ Str.DQ +:+ ":[{"
  +:+ Str.DQ +:+ "type" +:+ Str.DQ +:+ ":" +:+ Str.DQ +:+ "forgery" +:+ Str.DQ +:+ ","
  +:+ Str.DQ +:+ "description" +:+ Str.DQ +:+ ":" +:+ Str.DQ +:+ "x" +:+ Str.DQ +:+ "}]}]".

(** [JSON.parse] on the texts used below; every other argument is
    taken as unparseable. *)
Definition JSON_parse (v : value) : option value :=
  match v with
  | VString s =>
      if String.eqb s forgery_text then Some (VArray [entry 0 "forgery" "x"])
      else if String.eqb s stray_text
      then Some (VArray [Spec.response_entry 5 []; entry 0 "forgery" "x"])
      else if String.eqb s "[]" then Some (VArray [])
      else if String.eqb s "{}" then Some (VObject [])
      else None
  | _ => None
  end.

(** A stand-in for [JSON.stringify]: only the [input] of the request
    body is kept. *)
Definition JSON_stringify (v : value) : string :=
  match Get v "input" with
  | Normal (VString s) => s
  | _ => EmptyString
  end.

(** A body [{output: [{content: [{text: payload}]}]}] of the endpoint. *)
Definition body_with (payload : string) : value :=
  VObject [("output",
    VArray [VObject [("content", VArray [VObject [("text", VString payload)]])]])].

(** An error body [{error: {message: m}}]. *)
Definition error_body (m : string) : value :=
  VObject [("error", VObject [("message", VString m)])].

Definition header2 : row :=
  [Cell false "Attack Surface"; Cell false "Description"].

Definition empty_page : page := Page (Table header2 []) (Text EmptyString).

(** One row and two rows, filled in by the user. *)
Definition one_row : page :=
  Page (Table header2 [[Cell true " Login "; Cell true "User login"]])
       (Text EmptyString).

Definition two_rows : page :=
  Page (Table header2 [ [Cell true "Login"; Cell true "User login"];
                        [Cell true "Upload"; Cell true "File upload"] ])
       (Text EmptyString).

Definition key : inputs := Inputs "sk-test" None.

(** A page whose second row has lost a cell. *)
Definition short_page : page :=
  Page (Table header2 [ [Cell true "Login"; Cell true "User login"];
                        [Cell true "Upload"] ])
       (Text "Request failed").

(** The text [[{"index":1,"threats":[]},{"index":0,"threats":[...]}]]
    and the same entries in the other order. *)
Definition both_text : string :=
  "[{" +:+ Str.DQ +:+ "index" +:+ Str.DQ +:+ ":1," +:+ Str.DQ +:+ "threats" +:+ Str.DQ +:+ ":[]},{"
  +:+ Str.DQ +:+ "index" +:+ Str.DQ +:+ ":0," +:+ Str.DQ +:+ "threats" +:+ Str.DQ +:+ ":[{"
  +:+ Str.DQ +:+ "type" +:+ Str.DQ +:+ ":" +:+ Str.DQ +:+ "forgery" +:+ Str.DQ +:+ ","
  +:+ Str.DQ +:+ "description" +:+ Str.DQ +:+ ":" +:+ Str.DQ +:+ "x" +:+ Str.DQ +:+ "}]}]".

Definition both_swapped_text : string :=
  "[{" +:+ Str.DQ +:+ "index" +:+ Str.DQ +:+ ":0," +:+ Str.DQ +:+ "threats" +:+ Str.DQ +:+ ":[{"
  +:+ Str.DQ +:+ "type" +:+ Str.DQ +:+ ":" +:+ Str.DQ +:+ "forgery" +:+ Str.DQ +:+ ","
  +:+ Str.DQ +:+ "description" +:+ Str.DQ +:+ ":" +:+ Str.DQ +:+ "x" +:+ Str.DQ +:+ "}]},{"
  +:+ Str.DQ +:+ "index" +:+ Str.DQ +:+ ":1," +:+ Str.DQ +:+ "threats" +:+ Str.DQ +:+ ":[]}]".

(** The text [[{"index":0,"threats":null}]]: an entry for row 0 whose
    threats are not an array. *)
Definition null_threats_text : string :=
  "[{" +:+ Str.DQ +:+ "index" +:+ Str.DQ +:+ ":0," +:+ Str.DQ +:+ "threats" +:+ Str.DQ +:+ ":null}]".

(** [JSON.parse] on the texts of this module. *)
Definition JSON_parse' (v : value) : option value :=
  match v with
  | VString s =>
      if String.eqb s both_text
      then Some (VArray [Spec.response_entry 1 []; entry 0 "forgery" "x"])
      else if String.eqb s both_swapped_text
      then Some (VArray [entry 0 "forgery" "x"; Spec.response_entry 1 []])
      else if String.eqb s null_threats_text
      then Some (VArray [VObject [("index", VNumber 0); ("threats", VNull)]])
      else JSON_parse v
  | _ => None
  end.

End Examples.

(** ** Facts about [trim] *)

Import Str JS DOM Script.

Lemma append_nil_r (s : string) : s +:+ EmptyString = s.
Proof. induction s as [|c s IH]; simpl; [reflexivity | f_equal; exact IH]. Qed.

Lemma append_assoc (s t u : string) : s +:+ (t +:+ u) = (s +:+ t) +:+ u.
Proof. induction s as [|c s IH]; simpl; [reflexivity | f_equal; exact IH]. Qed.

Lemma trimStart_decompose (s : string) :
  exists pre, all_white_space pre = true /\ s = pre +:+ trimStart s.
Proof.
  induction s as [|c s IH]; simpl.
  - exists EmptyString. split; reflexivity.
  - destruct (is_white_space c) eqn:Hc.
    + destruct IH as (pre & Hpre & Heq).
      exists (String c pre). simpl. rewrite Hc, Hpre. split; [reflexivity|].
      f_equal. exact Heq.
    + exists EmptyString. split; reflexivity.
Qed.

Lemma trimEnd_decompose (s : string) :
  exists post, all_white_space post = true /\ s = trimEnd s +:+ post.
Proof.
  induction s as [|c s IH]; simpl.
  - exists EmptyString. split; reflexivity.
  - destruct IH as (post & Hpost & Heq).
    destruct (trimEnd s) as [|d r] eqn:Hr.
    + simpl in Heq. subst post.
      destruct (is_white_space c) eqn:Hc.
      * exists (String c s). simpl. rewrite Hc, Hpost. split; reflexivity.
      * exists s. split; [exact Hpost | reflexivity].
    + exists post. split; [exact Hpost|]. simpl. f_equal. exact Heq.
Qed.

Lemma trimStart_first (s : string) (c : ascii) :
  first_char (trimStart s) = Some c -> is_white_space c = false.
Proof.
  induction s as [|d s IH]; simpl; [discriminate|].
  destruct (is_white_space d) eqn:Hd; [exact IH|].
  simpl. intros [= <-]. exact Hd.
Qed.

Lemma trimEnd_first (s : string) :
  first_char (trimEnd s) = None \/ first_char (trimEnd s) = first_char s.
Proof.
  destruct s as [|c s]; simpl; [left; reflexivity|].
  destruct (trimEnd s); [destruct (is_white_space c)|]; simpl; auto.
Qed.

Lemma trimEnd_last (s : string) (c : ascii) :
  last_char (trimEnd s) = Some c -> is_white_space c = false.
Proof.
  induction s as [|d s IH]; simpl; [discriminate|].
  destruct (trimEnd s) as [|e r] eqn:Hr.
  - destruct (is_white_space d) eqn:Hd; simpl; [discriminate|].
    intros [= <-]. exact Hd.
  - intros H. apply IH. exact H.
Qed.

Lemma trim_decompose (s : string) :
  exists pre post,
    all_white_space pre = true /\ all_white_space post = true /\
    s = pre +:+ trim s +:+ post.
Proof.
  destruct (trimStart_decompose s) as (pre & Hpre & Hs).
  destruct (trimEnd_decompose (trimStart s)) as (post & Hpost & Ht).
  exists pre, post. unfold trim. rewrite <- Ht. auto.
Qed.

Lemma trim_first (s : string) (c : ascii) :
  first_char (trim s) = Some c -> is_white_space c = false.
Proof.
  unfold trim. intros H.
  destruct (trimEnd_first (trimStart s)) as [E|E]; rewrite E in H.
  - discriminate.
  - eapply trimStart_first; eassumption.
Qed.

Lemma trim_last (s : string) (c : ascii) :
  last_char (trim s) = Some c -> is_white_space c = false.
Proof. apply trimEnd_last. Qed.

Lemma trim_all_white_space (s : string) :
  all_white_space s = true -> trim s = EmptyString.
Proof.
  unfold trim. induction s as [|c s IH]; simpl; [reflexivity|].
  intros [Hc Hs]%andb_true_iff. rewrite Hc. auto.
Qed.

(** ** Facts about the snapshot *)

Lemma mapM_imap_snapshot (rows : list row) (k : nat) (snap : list surface_row) :
  mapM (fun o => o) (imap (fun i => snapshot_row (k + i)) rows) = Some snap ->
  map index snap = seq k (length rows) /\
  forall i tr, rows !! i = Some tr ->
    exists c0 c1,
      tr !! 0%nat = Some c0 /\ tr !! 1%nat = Some c1 /\
      snap !! i = Some {| index := k + i;
                          surface := trim (innerText c0);
                          description := trim (innerText c1) |}.
Proof.
  revert k snap. induction rows as [|tr rows IH]; intros k snap; simpl.
  - intros [= <-]. split; [reflexivity|]. intros i tr H. discriminate.
  - rewrite Nat.add_0_r.
    destruct (snapshot_row k tr) as [r|] eqn:Hr; simpl; [|discriminate].
    rewrite (imap_ext _ (fun i => snapshot_row (S k + i)));
      [|intros; simpl; f_equal; lia].
    destruct (mapM _ _) as [rest|] eqn:Hrest; simpl; [|discriminate].
    intros [= <-].
    destruct (IH _ _ Hrest) as [Hidx Hrows].
    unfold snapshot_row in Hr.
    destruct (tr !! 0%nat) as [c0|] eqn:H0; simpl in Hr; [|discriminate].
    destruct (tr !! 1%nat) as [c1|] eqn:H1; simpl in Hr; [|discriminate].
    injection Hr as <-. split.
    + simpl. f_equal. exact Hidx.
    + intros [|i] tr' H; simpl in H.
      * injection H as <-. exists c0, c1. rewrite Nat.add_0_r. auto.
      * destruct (Hrows _ _ H) as (d0 & d1 & ? & ? & Hs).
        exists d0, d1. repeat split; try assumption.
        simpl. rewrite Hs. do 2 f_equal. lia.
Qed.

Lemma snapshot_spec (rows : list row) (snap : list surface_row) :
  snapshot rows = Some snap ->
  map index snap = seq 0 (length rows) /\
  forall i tr, rows !! i = Some tr ->
    exists c0 c1,
      tr !! 0%nat = Some c0 /\ tr !! 1%nat = Some c1 /\
      snap !! i = Some {| index := i;
                          surface := trim (innerText c0);
                          description := trim (innerText c1) |}.
Proof. intros H. exact (mapM_imap_snapshot rows 0 snap H). Qed.

Lemma snapshot_readable_from (rows : list row) (k : nat) :
  existsb Spec.short_row rows = false ->
  mapM (fun o => o) (imap (fun i => snapshot_row (k + i)) rows)
  = Some (imap (fun i => Spec.kept_row (k + i)) rows) /\
  map surface_line (imap (fun i => Spec.kept_row (k + i)) rows)
  = imap (fun i => Spec.row_line (k + i)) rows.
Proof.
  revert k. induction rows as [|tr rows IH]; intros k H; [split; reflexivity|].
  cbn [existsb] in H. apply orb_false_iff in H as [Htr Hrows].
  cbn [imap]. rewrite Nat.add_0_r.
  rewrite !(imap_ext (_ ∘ S) (fun i => snapshot_row (S k + i)) rows),
          !(imap_ext (_ ∘ S) (fun i => Spec.kept_row (S k + i)) rows),
          !(imap_ext (_ ∘ S) (fun i => Spec.row_line (S k + i)) rows);
    try (intros; simpl; rewrite Nat.add_succ_r; reflexivity).
  destruct (IH (S k) Hrows) as [Hsnap Hlines].
  destruct tr as [|c0 [|c1 tr]]; try discriminate Htr.
  change (snapshot_row k (c0 :: c1 :: tr))
    with (Some (Spec.kept_row k (c0 :: c1 :: tr))).
  cbn [mapM mbind option_bind]. rewrite Hsnap.
  split; [reflexivity|]. cbn [map]. rewrite Hlines. reflexivity.
Qed.

(** The rows of a table none of whose rows is short are all read, each
    with its position and its trimmed texts. *)
Lemma snapshot_readable (rows : list row) :
  existsb Spec.short_row rows = false ->
  snapshot rows = Some (imap Spec.kept_row rows) /\
  map surface_line (imap Spec.kept_row rows) = imap Spec.row_line rows.
Proof. intros H. exact (snapshot_readable_from rows 0 H). Qed.

Lemma trimmed_of_trim (s : string) : Spec.trimmed_of s (trim s).
Proof.
  split; [apply trim_decompose|]. split; [apply trim_first | apply trim_last].
Qed.

(** ** The submission up to [fetch] *)

Section Click.

Variable JSON_parse : value -> option value.
Variable JSON_stringify : value -> string.

Local Abbreviation submit_click := (Script.submit_click JSON_stringify).
Local Abbreviation submit := (Script.submit JSON_parse JSON_stringify).
Local Abbreviation fetch_request := (Script.fetch_request JSON_stringify).

Lemma submit_click_blank (inp : inputs) (p : page) :
  trim (api_key_value inp) = EmptyString ->
  submit_click inp p = (Spec.missing_credential p, None).
Proof. intros H. unfold Script.submit_click. rewrite H. reflexivity. Qed.

Lemma submit_click_request (inp : inputs) (p : page) (req : request) :
  snd (submit_click inp p) = Some req ->
  exists snap,
    snapshot (tBody (attack_table p)) = Some snap /\
    req = fetch_request (trim (api_key_value inp)) (prompt snap).
Proof.
  unfold Script.submit_click.
  destruct (negb _); simpl; [discriminate|].
  destruct (snapshot _) as [snap|]; simpl; [|discriminate].
  intros [= <-]. exists snap. auto.
Qed.

Lemma submit_requests (inp : inputs) (net : request -> fetch_outcome) (p : page) :
  snd (submit inp net p) =
    match snd (submit_click inp p) with
    | None => []
    | Some req => [req]
    end.
Proof.
  unfold Script.submit. destruct (submit_click inp p) as [p' [req|]]; reflexivity.
Qed.

(** C3.  A submission with the empty credential ends with the message of
    a missing credential in the error region, makes no request and
    leaves the table as it was, whatever the endpoint would answer. *)
Theorem empty_credential_no_request
    (ov : option string) (net : request -> fetch_outcome) (p : page) :
  submit (Inputs EmptyString ov) net p = (Spec.missing_credential p, []) /\
  attack_table (fst (submit (Inputs EmptyString ov) net p)) = attack_table p /\
  snd (submit_click (Inputs EmptyString ov) p) = None.
Proof.
  unfold Script.submit.
  rewrite submit_click_blank by reflexivity. auto.
Qed.

(** C9.  At a click with a usable credential on a table whose rows
    can be read, the handler keeps of every body row its position and
    the trimmed [innerText] of its first two cells, and builds the
    prompt of its one request from those: each kept text is the cell
    text without its leading and trailing white space.  The credential
    is trimmed before it is tested, so that a credential of white space
    only is rejected as missing, with no request and the table
    untouched. *)
Theorem snapshot_and_credential_trimmed :
  (forall inp p,
      is_empty (trim (api_key_value inp)) = false ->
      existsb Spec.short_row (tBody (attack_table p)) = false ->
      snapshot (tBody (attack_table p))
      = Some (imap Spec.kept_row (tBody (attack_table p))) /\
      submit_click inp p
      = ({| attack_table := attack_table p; errorDiv := Text EmptyString |},
         Some (fetch_request (trim (api_key_value inp))
                 (prompt (imap Spec.kept_row (tBody (attack_table p)))))) /\
      forall i tr, tBody (attack_table p) !! i = Some tr ->
        exists c0 c1,
          tr !! 0%nat = Some c0 /\ tr !! 1%nat = Some c1 /\
          imap Spec.kept_row (tBody (attack_table p)) !! i
          = Some (SurfaceRow i (trim (innerText c0)) (trim (innerText c1))) /\
          Spec.trimmed_of (innerText c0) (trim (innerText c0)) /\
          Spec.trimmed_of (innerText c1) (trim (innerText c1))) /\
  (forall s, Spec.trimmed_of s (trim s)) /\
  (forall inp net p,
      all_white_space (api_key_value inp) = true ->
      submit inp net p = (Spec.missing_credential p, [])).
Proof.
  split; [|split].
  - intros inp p Hkey Hrows.
    destruct (snapshot_readable _ Hrows) as [Hsnap _].
    split; [exact Hsnap|]. split.
    + unfold Script.submit_click. cbn [ToBoolean]. rewrite Hkey, Hsnap.
      reflexivity.
    + intros i tr Htr.
      destruct (snapshot_spec _ _ Hsnap) as [_ Hspec].
      destruct (Hspec i tr Htr) as (c0 & c1 & H0 & H1 & Hs).
      exists c0, c1. repeat split; try assumption;
        first [ apply trim_decompose | apply trim_first | apply trim_last ].
  - exact trimmed_of_trim.
  - intros inp net p Hws. unfold Script.submit.
    rewrite submit_click_blank by (apply trim_all_white_space; exact Hws).
    reflexivity.
Qed.

Lemma join_lookup (sep : string) (l : list string) (i : nat) (x : string) :
  l !! i = Some x -> exists pre post, join sep l = pre +:+ x +:+ post.
Proof.
  revert i. induction l as [|y l IH]; intros [|i] H; simpl in H; try discriminate.
  - injection H as ->. exists EmptyString.
    destruct l as [|z l]; simpl.
    + exists EmptyString. symmetry. apply append_nil_r.
    + eexists. reflexivity.
  - destruct (IH _ H) as (pre & post & Heq).
    destruct l as [|z l]; [discriminate|].
    exists (y +:+ sep +:+ pre), post.
    change (join sep (y :: z :: l)) with (y +:+ sep +:+ join sep (z :: l)).
    rewrite Heq. rewrite <- !append_assoc. reflexivity.
Qed.

(** C5.  At a click with a usable credential on a table whose rows
    can be read, the handler makes one request whose [input] is the
    fixed introduction, the twelve categories as [id: description]
    lines in the order of their declaration, the heading of the
    surfaces, and one line [#index: surface - description] per body
    row, in the order of the rows, the index being the position of the
    row and the texts the trimmed texts of its first two cells. *)
Theorem prompt_lists_taxonomy_and_rows :
  length categories = 12%nat /\
  map category_line categories = Spec.taxonomy_lines /\
  (forall inp net p,
      is_empty (trim (api_key_value inp)) = false ->
      existsb Spec.short_row (tBody (attack_table p)) = false ->
      exists req,
        snd (submit_click inp p) = Some req /\
        snd (submit inp net p) = [req] /\
        body req =
          JSON_stringify
            (VObject
               [ ("model", VString "gpt-4o-mini");
                 ("input",
                   VString
                     (prompt_intro +:+ join LF Spec.taxonomy_lines
                      +:+ prompt_middle
                      +:+ join LF (imap Spec.row_line (tBody (attack_table p)))
                      +:+ LF));
                 ("response_format",
                   VObject [("type", VString "json_object")]) ]) /\
        forall i tr, tBody (attack_table p) !! i = Some tr ->
          exists pre post,
            join LF (imap Spec.row_line (tBody (attack_table p)))
            = pre +:+ Spec.row_line i tr +:+ post).
Proof.
  split; [reflexivity|]. split; [reflexivity|].
  intros inp net p Hkey Hrows.
  destruct (snapshot_readable _ Hrows) as [Hsnap Hlines].
  assert (Hclick : snd (submit_click inp p)
            = Some (fetch_request (trim (api_key_value inp))
                      (prompt (imap Spec.kept_row (tBody (attack_table p)))))).
  { unfold Script.submit_click. cbn [ToBoolean]. rewrite Hkey, Hsnap.
    reflexivity. }
  eexists. split; [exact Hclick|]. split; [|split].
  - rewrite submit_requests, Hclick. reflexivity.
  - cbn [body Script.fetch_request]. unfold prompt. rewrite Hlines. reflexivity.
  - intros i tr Htr. apply (join_lookup _ _ i).
    rewrite list_lookup_imap. unfold row in *. rewrite Htr. reflexivity.
Qed.

(** C4, as the code has it.  The handler knows no endpoint override: a
    submission makes no request when the trimmed credential is empty or
    a row cannot be read, and otherwise exactly one, a POST to the fixed
    address of the responses endpoint, the same request whatever
    override the page supplies. *)
Theorem one_post_to_fixed_endpoint
    (inp : inputs) (net : request -> fetch_outcome) (p : page) :
  snd (submit inp net p) =
    (if is_empty (trim (api_key_value inp)) then []
     else match snapshot (tBody (attack_table p)) with
          | None => []
          | Some snap => [fetch_request (trim (api_key_value inp)) (prompt snap)]
          end) /\
  (length (snd (submit inp net p)) <= 1)%nat /\
  (forall req, In req (snd (submit inp net p)) ->
     url req = "https://api.openai.com/v1/responses" /\ method req = "POST") /\
  (forall ov, submit (Inputs (api_key_value inp) ov) net p = submit inp net p).
Proof.
  assert (Hreqs : snd (submit inp net p) =
    (if is_empty (trim (api_key_value inp)) then []
     else match snapshot (tBody (attack_table p)) with
          | None => []
          | Some snap => [fetch_request (trim (api_key_value inp)) (prompt snap)]
          end)).
  { rewrite submit_requests. unfold Script.submit_click. simpl.
    destruct (is_empty _); simpl; [reflexivity|].
    destruct (snapshot _); reflexivity. }
  split; [exact Hreqs|]. rewrite Hreqs. split; [|split].
  - destruct (is_empty _); simpl; [lia|]. destruct (snapshot _); simpl; lia.
  - intros req. destruct (is_empty _); simpl; [tauto|].
    destruct (snapshot _); simpl; [|tauto].
    intros [<-|[]]. split; reflexivity.
  - intros ov. reflexivity.
Qed.

End Click.

Lemma snapshot_and_credential_trimmed_witness :
  snapshot (tBody (attack_table Examples.one_row))
  = Some (imap Spec.kept_row (tBody (attack_table Examples.one_row))) /\
  Script.submit_click Examples.JSON_stringify (Inputs " sk-test " None)
    Examples.one_row
  = ({| attack_table := attack_table Examples.one_row;
        errorDiv := Text EmptyString |},
     Some (Script.fetch_request Examples.JSON_stringify
             (trim (api_key_value (Inputs " sk-test " None)))
             (prompt (imap Spec.kept_row
                        (tBody (attack_table Examples.one_row)))))) /\
  forall i tr, tBody (attack_table Examples.one_row) !! i = Some tr ->
    exists c0 c1,
      tr !! 0%nat = Some c0 /\ tr !! 1%nat = Some c1 /\
      imap Spec.kept_row (tBody (attack_table Examples.one_row)) !! i
      = Some (SurfaceRow i (trim (innerText c0)) (trim (innerText c1))) /\
      Spec.trimmed_of (innerText c0) (trim (innerText c0)) /\
      Spec.trimmed_of (innerText c1) (trim (innerText c1)).
Proof.
  apply (proj1 (snapshot_and_credential_trimmed Examples.JSON_parse
                  Examples.JSON_stringify)
           (Inputs " sk-test " None) Examples.one_row); reflexivity.
Defined.

Lemma prompt_lists_taxonomy_and_rows_witness :
  exists req,
    snd (Script.submit_click Examples.JSON_stringify Examples.key
           Examples.one_row) = Some req /\
    snd (Script.submit Examples.JSON_parse Examples.JSON_stringify Examples.key
           (fun _ => FetchRejected) Examples.one_row) = [req] /\
    body req =
      Examples.JSON_stringify
        (VObject
           [ ("model", VString "gpt-4o-mini");
             ("input",
               VString
                 (prompt_intro +:+ join LF Spec.taxonomy_lines
                  +:+ prompt_middle
                  +:+ join LF (imap Spec.row_line
                                 (tBody (attack_table Examples.one_row)))
                  +:+ LF));
             ("response_format", VObject [("type", VString "json_object")]) ]) /\
    forall i tr, tBody (attack_table Examples.one_row) !! i = Some tr ->
      exists pre post,
        join LF (imap Spec.row_line (tBody (attack_table Examples.one_row)))
        = pre +:+ Spec.row_line i tr +:+ post.
Proof.
  apply (proj2 (proj2 (prompt_lists_taxonomy_and_rows Examples.JSON_parse
                         Examples.JSON_stringify))
           Examples.key (fun _ => FetchRejected) Examples.one_row);
    reflexivity.
Defined.

Lemma one_post_to_fixed_endpoint_witness :
  url (Script.fetch_request Examples.JSON_stringify "sk-test"
         (prompt [SurfaceRow 0 "Login" "User login"]))
  = "https://api.openai.com/v1/responses" /\
  method (Script.fetch_request Examples.JSON_stringify "sk-test"
            (prompt [SurfaceRow 0 "Login" "User login"]))
  = "POST".
Proof.
  apply (proj1 (proj2 (proj2
           (one_post_to_fixed_endpoint Examples.JSON_parse Examples.JSON_stringify
              Examples.key (fun _ => FetchRejected) Examples.one_row)))).
  simpl. left. reflexivity.
Defined.

(** C4 as stated fails: with an override supplied, the one request of
    the submission still goes to the fixed address, not to the
    override. *)
Lemma override_not_honoured :
  exists req,
    snd (Script.submit Examples.JSON_parse Examples.JSON_stringify
           (Inputs "sk-test" (Some "https://llm.example/v1/responses"))
           (fun _ => FetchRejected) Examples.one_row) = [req] /\
    url req <> "https://llm.example/v1/responses".
Proof.
  eexists. split; [reflexivity|]. simpl. discriminate.
Qed.

(** ** The "add row" button *)

Section AddRow.

Variable JSON_parse : value -> option value.
Variable JSON_stringify : value -> string.

Local Abbreviation run := (Script.run JSON_parse JSON_stringify).

Lemma add_row_blank (t : table) :
  add_row t = {| tHead := tHead t; tBody := tBody t ++ [Spec.blank_row (tHead t)] |}.
Proof.
  unfold add_row, Spec.blank_row. destruct (2 <? length (tHead t))%nat; reflexivity.
Qed.

Lemma run_add_rows (n : nat) (h : row) (rows : list row) (e : text) :
  run (replicate n AddRow) (Page (Table h rows) e)
  = Page (Table h (rows ++ replicate n (Spec.blank_row h))) e.
Proof.
  revert rows. induction n as [|n IH]; intros rows; simpl.
  - rewrite app_nil_r. reflexivity.
  - change (run (replicate n AddRow) (Page (add_row (Table h rows)) e) = 
              Page (Table h (rows ++ Spec.blank_row h :: replicate n (Spec.blank_row h))) e).
    rewrite add_row_blank. simpl. rewrite IH.
    rewrite <- app_assoc. reflexivity.
Qed.

Lemma snapshot_total_from (rows : list row) (k : nat) :
  Forall (fun tr => 2 <= length tr)%nat rows ->
  exists snap, mapM (fun o => o) (imap (fun i => snapshot_row (k + i)) rows) = Some snap.
Proof.
  intros H. revert k. induction H as [|tr rows Htr _ IH]; intros k; simpl.
  - eexists. reflexivity.
  - destruct tr as [|c0 [|c1 tr]]; simpl in Htr; try lia.
    unfold snapshot_row at 1. simpl.
    destruct (IH (S k)) as (snap & Hsnap).
    rewrite (imap_ext _ (fun i => snapshot_row (S k + i)));
      [|intros; simpl; rewrite Nat.add_succ_r; reflexivity].
    rewrite Hsnap. eexists. reflexivity.
Qed.

Lemma snapshot_total (rows : list row) :
  Forall (fun tr => 2 <= length tr)%nat rows ->
  exists snap, snapshot rows = Some snap.
Proof. intros H. exact (snapshot_total_from rows 0 H). Qed.

Lemma blank_row_cells (h : row) (c : cell) :
  In c (Spec.blank_row h) -> innerText c = EmptyString.
Proof.
  unfold Spec.blank_row. destruct (2 <? length h)%nat; simpl; intuition (subst; reflexivity).
Qed.

(** C7.  From a table without body rows, [n] clicks on "add row" give
    exactly [n] rows, each the blank row (two editable cells, and two
    plain ones when the header has more than two cells, all with empty
    text); the rows kept by a submission then carry the indices 0 to
    [n - 1], each at its own position, with empty surface and
    description. *)
Theorem add_row_sequence (h : row) (e : text) (n : nat) :
  let p := run (replicate n AddRow) (Page (Table h []) e) in
  let rows := tBody (attack_table p) in
  length rows = n /\
  tHead (attack_table p) = h /\
  (forall i, (i < n)%nat <-> rows !! i = Some (Spec.blank_row h)) /\
  (forall tr c, In tr rows -> In c tr -> innerText c = EmptyString) /\
  exists snap,
    snapshot rows = Some snap /\
    map index snap = seq 0 n /\
    forall i, (i < n)%nat <-> snap !! i = Some (SurfaceRow i EmptyString EmptyString).
Proof.
  intros p rows. subst rows p. rewrite run_add_rows. simpl.
  split; [apply length_replicate|]. split; [reflexivity|].
  split; [|split].
  - intros i. rewrite lookup_replicate. intuition.
  - intros tr c Htr%list_elem_of_In%elem_of_replicate Hc.
    destruct Htr as [-> _]. eapply blank_row_cells; eassumption.
  - destruct (snapshot_total (replicate n (Spec.blank_row h))) as (snap & Hsnap).
    { apply Forall_replicate. unfold Spec.blank_row.
      rewrite length_app. simpl. lia. }
    destruct (snapshot_spec _ _ Hsnap) as [Hidx Hrows].
    rewrite length_replicate in Hidx.
    exists snap. split; [exact Hsnap|]. split; [exact Hidx|].
    intros i. split.
    + intros Hi.
      destruct (Hrows i (Spec.blank_row h)) as (c0 & c1 & H0 & H1 & Hs).
      { apply lookup_replicate. auto. }
      rewrite Hs. injection H0 as <-. injection H1 as <-. reflexivity.
    + intros Hs. apply lookup_lt_Some in Hs.
      rewrite <- (length_map index snap), Hidx, length_seq in Hs. exact Hs.
Qed.

End AddRow.

Lemma add_row_sequence_witness :
  (2 < 3)%nat /\
  tBody (attack_table
           (Script.run Examples.JSON_parse Examples.JSON_stringify
              (replicate 3 AddRow) Examples.empty_page)) !! 2%nat
  = Some (Spec.blank_row Examples.header2).
Proof.
  split; [lia|].
  apply (proj1 (proj2 (proj2
           (add_row_sequence Examples.JSON_parse Examples.JSON_stringify
              Examples.header2 (Text EmptyString) 3)))).
  lia.
Defined.

(** ** Statements on the table *)

Lemma forEach_app {A} (f : A -> M unit) (l1 l2 : list A) (t : table) :
  forEach f (l1 ++ l2) t =
    match forEach f l1 t with
    | (Normal _, t1) => forEach f l2 t1
    | (Throw e, t1) => (Throw e, t1)
    end.
Proof.
  revert t. induction l1 as [|x l1 IH]; intros t; simpl; [reflexivity|].
  unfold bind. destruct (f x t) as [[[]|e] t1]; [apply IH | reflexivity].
Qed.

(** A property of the table kept by every call of [f] is kept by the
    loop, however it ends. *)
Lemma forEach_preserves {A} (P : table -> Prop) (f : A -> M unit) (l : list A) :
  (forall x t, P t -> P (snd (f x t))) ->
  forall t, P t -> P (snd (forEach f l t)).
Proof.
  intros Hf. induction l as [|x l IH]; intros t Ht; simpl; [exact Ht|].
  unfold bind. specialize (Hf x t Ht).
  destruct (f x t) as [[[]|e] t1]; simpl in *; auto.
Qed.

Lemma with_row_Normal (i : nat) (f : row -> completion row) (t t' : table) :
  with_row i f t = (Normal tt, t') ->
  exists tr tr', tBody t !! i = Some tr /\ f tr = Normal tr' /\
                 t' = {| tHead := tHead t; tBody := <[i := tr']> (tBody t) |}.
Proof.
  unfold with_row. destruct (tBody t !! i) as [tr|]; [|discriminate].
  destruct (f tr) as [tr'|e] eqn:Hf; [|discriminate].
  intros [= <-]. eauto.
Qed.

Lemma with_row_Throw (i : nat) (f : row -> completion row) (t t' : table) (e : exn) :
  with_row i f t = (Throw e, t') -> t' = t.
Proof.
  unfold with_row. destruct (tBody t !! i) as [tr|]; [|congruence].
  destruct (f tr); congruence.
Qed.

(** ** Failed submissions *)

Section Failure.

Variable JSON_parse : value -> option value.
Variable JSON_stringify : value -> string.

Local Abbreviation response_try := (Script.response_try JSON_parse).
Local Abbreviation submit_response := (Script.submit_response JSON_parse).
Local Abbreviation submit := (Script.submit JSON_parse JSON_stringify).
Local Abbreviation parse_response := (Script.parse_response JSON_parse).

Lemma response_try_not_ok (data : value) (t : table) :
  response_try (Response false data) t =
    match error_message data with
    | Normal msg =>
        match ToString msg with
        | Normal shown => (Throw (Error shown), t)
        | Throw e => (Throw e, t)
        end
    | Throw e => (Throw e, t)
    end.
Proof.
  unfold Script.response_try, bind, lift, throw.
  cbn [negb]. cbv iota.
  destruct (error_message data) as [msg|]; [|reflexivity].
  destruct (ToString msg); reflexivity.
Qed.

Lemma response_try_ok (data : value) (t : table) :
  response_try (Response true data) t =
    match parse_response data with
    | Throw e => (Throw e, t)
    | Normal parsed =>
        (add_output_columns ;;
         match parsed with
         | VArray items => forEach apply_item items
         | _ => throw (HostError TypeError)
         end) t
    end.
Proof.
  unfold Script.response_try, bind, lift, ret. simpl.
  destruct (parse_response data); reflexivity.
Qed.

Lemma parse_response_Throw (data : value) (e : exn) :
  parse_response data = Throw e -> e = Error "Failed to parse AI response.".
Proof.
  unfold Script.parse_response.
  destruct (response_text data); [destruct (JSON_parse _)|]; congruence.
Qed.

Lemma response_try_failure (o : fetch_outcome) (t : table) :
  Spec.transport_error o || Spec.malformed_response JSON_parse o = true ->
  exists e, response_try o t = (Throw e, t).
Proof.
  destruct o as [|ok|[] data]; intros H.
  - eexists. reflexivity.
  - eexists. reflexivity.
  - rewrite response_try_ok. simpl in H.
    destruct (parse_response data); [discriminate|]. eexists. reflexivity.
  - rewrite response_try_not_ok.
    destruct (error_message data) as [msg|]; [|eexists; reflexivity].
    destruct (ToString msg); eexists; reflexivity.
Qed.

(** C2.  A submission answered by a transport failure (a rejected
    [fetch], a body that is not JSON, a status outside the success
    range) or by a payload that does not parse leaves the table, header
    and body rows alike, exactly as it was.  With a status outside the
    success range the error region shows the message of the provider
    when the body carries a non-empty one, and [Request failed]
    otherwise; with an unparseable payload it shows the one message of a
    failed parse. *)
Theorem failed_submission_keeps_table :
  (forall o p,
      Spec.transport_error o || Spec.malformed_response JSON_parse o = true ->
      attack_table (submit_response o p) = attack_table p /\
      exists e, errorDiv (submit_response o p) = message e) /\
  (forall inp net p,
      (forall req, Spec.transport_error (net req)
                   || Spec.malformed_response JSON_parse (net req) = true) ->
      attack_table (fst (submit inp net p)) = attack_table p) /\
  (forall props eprops m p,
      own_property props "error" = Some (VObject eprops) ->
      own_property eprops "message" = Some (VString m) ->
      is_empty m = false ->
      errorDiv (submit_response (Response false (VObject props)) p) = Text m) /\
  (forall props p,
      own_property props "error" = None ->
      errorDiv (submit_response (Response false (VObject props)) p)
      = Text "Request failed") /\
  (forall data p,
      Spec.malformed_response JSON_parse (Response true data) = true ->
      errorDiv (submit_response (Response true data) p)
      = Text "Failed to parse AI response.").
Proof.
  assert (Hresp : forall o p,
      Spec.transport_error o || Spec.malformed_response JSON_parse o = true ->
      attack_table (submit_response o p) = attack_table p /\
      exists e, errorDiv (submit_response o p) = message e).
  { intros o p H. unfold Script.submit_response.
    destruct (response_try_failure o (attack_table p) H) as [e ->].
    simpl. eauto. }
  split; [exact Hresp|]. split; [|split; [|split]].
  - intros inp net p H. unfold Script.submit, Script.submit_click.
    destruct (negb _); simpl; [reflexivity|].
    destruct (snapshot _); simpl; [|reflexivity].
    rewrite (proj1 (Hresp _ _ (H _))). reflexivity.
  - intros props eprops m p He Hmsg Hm. unfold Script.submit_response.
    rewrite response_try_not_ok. unfold error_message. cbn [Get].
    rewrite He. cbn. rewrite Hmsg. cbn. rewrite Hm. reflexivity.
  - intros props p He. unfold Script.submit_response.
    rewrite response_try_not_ok. unfold error_message. cbn [Get].
    rewrite He. reflexivity.
  - intros data p H. unfold Script.submit_response.
    rewrite response_try_ok. simpl in H.
    destruct (parse_response data) as [|e] eqn:Hp; [discriminate|].
    apply parse_response_Throw in Hp. subst e. reflexivity.
Qed.

End Failure.

Lemma failed_submission_keeps_table_witness :
  attack_table
    (Script.submit_response Examples.JSON_parse
       (Response true (Examples.body_with "not json")) Examples.two_rows)
  = attack_table Examples.two_rows /\
  attack_table
    (Script.submit_response Examples.JSON_parse
       (Response false (Examples.error_body "Invalid API key")) Examples.two_rows)
  = attack_table Examples.two_rows /\
  errorDiv
    (Script.submit_response Examples.JSON_parse
       (Response false (Examples.error_body "Invalid API key")) Examples.two_rows)
  = Text "Invalid API key" /\
  errorDiv
    (Script.submit_response Examples.JSON_parse
       (Response true (Examples.body_with "not json")) Examples.two_rows)
  = Text "Failed to parse AI response.".
Proof.
  split; [|split; [|split]].
  - apply (proj1 (failed_submission_keeps_table Examples.JSON_parse
                    Examples.JSON_stringify)).
    reflexivity.
  - apply (proj1 (failed_submission_keeps_table Examples.JSON_parse
                    Examples.JSON_stringify)).
    reflexivity.
  - apply (proj1 (proj2 (proj2
             (failed_submission_keeps_table Examples.JSON_parse
                Examples.JSON_stringify)))
             _ [("message", VString "Invalid API key")]);
      reflexivity.
  - apply (proj2 (proj2 (proj2 (proj2
             (failed_submission_keeps_table Examples.JSON_parse
                Examples.JSON_stringify))))).
    reflexivity.
Defined.

(** ** The output columns *)

Lemma regular_Forall (t : table) :
  Spec.regular t = true <->
  Forall (fun tr => length tr = length (tHead t)) (tBody t).
Proof.
  unfold Spec.regular. rewrite forallb_forall, List.Forall_forall.
  split; intros H tr Htr; specialize (H tr Htr); apply Nat.eqb_eq; exact H.
Qed.

Lemma insert_middle {A} (l1 l2 : list A) (x y : A) :
  <[length l1 := y]> (l1 ++ x :: l2) = l1 ++ y :: l2.
Proof.
  rewrite insert_app_r_alt by lia. rewrite Nat.sub_diag. reflexivity.
Qed.

Lemma widen_rows_from (h : row) (pre post : list row) :
  Forall (fun tr => length tr = 2%nat) post ->
  forEach (fun tr =>
             with_row tr (insertCell_at 2 EmptyString) ;;
             with_row tr (insertCell_at 3 EmptyString))
          (seq (length pre) (length post))
          {| tHead := h; tBody := pre ++ post |}
  = (Normal tt, {| tHead := h; tBody := pre ++ map Spec.widen post |}).
Proof.
  intros H. revert pre. induction H as [|tr post Htr _ IH]; intros pre.
  - reflexivity.
  - destruct tr as [|a [|b [|c tr]]]; try discriminate Htr.
    cbn [length seq forEach]. unfold bind at 1.
    unfold bind at 1. unfold with_row at 1. cbn [tBody tHead].
    rewrite list_lookup_middle by reflexivity. cbn.
    unfold with_row at 1. cbn [tBody tHead].
    rewrite insert_middle.
    rewrite list_lookup_middle by reflexivity. cbn.
    rewrite insert_middle.
    specialize (IH (pre ++ [[a; b; new_cell; new_cell]])).
    rewrite length_app, Nat.add_1_r, <- !app_assoc in IH. cbn in IH.
    exact IH.
Qed.

Lemma add_output_columns_regular (t : table) :
  Spec.regular t = true ->
  add_output_columns t = (Normal tt, Spec.with_columns t).
Proof.
  intros H%regular_Forall. unfold add_output_columns, Spec.with_columns.
  destruct (length (tHead t) =? 2)%nat eqn:Hh; [|reflexivity].
  apply Nat.eqb_eq in Hh. rewrite Hh in H.
  destruct t as [[|a [|b [|c h]]] rows]; try discriminate Hh. cbn in *.
  exact (widen_rows_from _ [] rows H).
Qed.

Lemma with_columns_regular (t : table) :
  Spec.regular t = true -> Spec.two_or_four t = true ->
  length (tHead (Spec.with_columns t)) = 4%nat /\
  length (tBody (Spec.with_columns t)) = length (tBody t) /\
  Forall (fun tr => length tr = 4%nat) (tBody (Spec.with_columns t)).
Proof.
  intros H%regular_Forall H24. unfold Spec.two_or_four in H24.
  unfold Spec.with_columns.
  destruct (length (tHead t) =? 2)%nat eqn:Hh; simpl in *.
  - apply Nat.eqb_eq in Hh. rewrite Hh in H.
    unfold Spec.output_header. rewrite length_app, Hh, length_map.
    repeat split. apply Forall_fmap. eapply Forall_impl; [exact H|].
    intros tr Htr. simpl. unfold Spec.widen. rewrite length_app, Htr. reflexivity.
  - apply Nat.eqb_eq in H24. rewrite H24 in H. auto.
Qed.

(** Row [i] of the table with its columns: the cells it had, and two
    empty ones when the columns were not there yet. *)
Lemma with_columns_row (t : table) (i : nat) (tr : row) :
  Spec.regular t = true -> Spec.two_or_four t = true ->
  tBody t !! i = Some tr ->
  exists tr1,
    tBody (Spec.with_columns t) !! i = Some tr1 /\
    tr1 !! 0%nat = tr !! 0%nat /\ tr1 !! 1%nat = tr !! 1%nat /\
    Spec.cell_text 2 tr1 = Some (default EmptyString (Spec.cell_text 2 tr)) /\
    Spec.cell_text 3 tr1 = Some (default EmptyString (Spec.cell_text 3 tr)).
Proof.
  intros H%regular_Forall H24 Htr. unfold Spec.two_or_four in H24.
  assert (Hlen : length tr = length (tHead t)).
  { rewrite List.Forall_forall in H. apply H.
    apply list_elem_of_In. eapply list_elem_of_lookup_2. exact Htr. }
  unfold Spec.with_columns.
  destruct (length (tHead t) =? 2)%nat eqn:Hh; simpl in *.
  - apply Nat.eqb_eq in Hh. rewrite Hh in Hlen.
    destruct tr as [|a [|b [|c tr]]]; try discriminate Hlen.
    exists (Spec.widen [a; b]). rewrite list_lookup_fmap, Htr.
    repeat split.
  - apply Nat.eqb_eq in H24. rewrite H24 in Hlen.
    destruct tr as [|a [|b [|c [|d [|e tr]]]]]; try discriminate Hlen.
    exists [a; b; c; d]. repeat split. exact Htr.
Qed.

(** ** Applying the entries of a response *)

Lemma apply_item_unfold (item : value) (t : table) :
  apply_item item t =
    match Get item "index" with
    | Throw e => (Throw e, t)
    | Normal idx =>
        match ToString idx with
        | Throw e => (Throw e, t)
        | Normal _ =>
            match threat_column "type" item with
            | Throw e => (Throw e, t)
            | Normal types =>
                match threat_column "description" item with
                | Throw e => (Throw e, t)
                | Normal descs =>
                    match rows_item (tBody t) idx with
                    | None => (Throw (HostError TypeError), t)
                    | Some i =>
                        (with_row i (set_innerText 2 types) ;;
                         with_row i (set_innerText 3 descs)) t
                    end
                end
            end
        end
    end.
Proof.
  unfold apply_item, bind, lift, throw.
  destruct (Get item "index") as [idx|]; [|reflexivity].
  destruct (ToString idx); [|reflexivity].
  destruct (threat_column "type" item); [|reflexivity].
  destruct (threat_column "description" item); [|reflexivity].
  destruct (rows_item _ _); reflexivity.
Qed.

Lemma ToString_array (elems : list value) :
  ToString (VArray elems) = Array_join "," elems.
Proof.
  unfold Array_join. cbn [ToString].
  induction elems as [|x elems IH]; [reflexivity|].
  cbn [join_elements]. unfold join_element at 1.
  destruct x; try reflexivity;
    match goal with
    | |- context [ToString ?v] =>
        destruct (ToString v); [|reflexivity]
    | _ => idtac
    end;
    match type of IH with
    | match ?a with _ => _ end = match ?b with _ => _ end =>
        destruct a, b; try discriminate; try reflexivity; congruence
    end.
Qed.

(** Induction on values, with the elements of an array as premises. *)
Lemma value_elements_ind (P : value -> Prop) :
  P VUndefined -> P VNull -> (forall b, P (VBool b)) ->
  (forall z, P (VNumber z)) -> (forall s, P (VString s)) ->
  (forall elems, Forall P elems -> P (VArray elems)) ->
  (forall props, P (VObject props)) ->
  forall v, P v.
Proof.
  intros Hu Hn Hb Hz Hs Ha Ho. fix IH 1. intros v.
  destruct v as [| |b|z|s|elems|props];
    [exact Hu | exact Hn | apply Hb | apply Hz | apply Hs | | apply Ho].
  apply Ha. induction elems as [|x elems IHl]; constructor; [apply IH | exact IHl].
Qed.

(** Whatever [ToString] throws is a [TypeError]. *)
Lemma ToString_Throw (v : value) (e : exn) :
  ToString v = Throw e -> e = HostError TypeError.
Proof.
  revert e. induction v as [| |b|z|s|elems IHelems|props] using value_elements_ind;
    intros e; try discriminate.
  all: try (destruct b; discriminate).
  - rewrite ToString_array. unfold Array_join.
    destruct (join_elements elems) as [ss|e'] eqn:Hj; [discriminate|].
    intros [= <-]. revert e' Hj.
    induction IHelems as [|x elems Hx _ IHl]; intros e' Hj; [discriminate|].
    cbn [join_elements] in Hj.
    destruct (join_element x) as [sx|ex] eqn:Hjx.
    + destruct (join_elements elems) as [ss|e''] eqn:Hj'; [discriminate|].
      injection Hj as <-. apply IHl. reflexivity.
    + injection Hj as <-. unfold join_element in Hjx.
      destruct x; try discriminate; eapply Hx; exact Hjx.
  - cbn [ToString]. destruct (own_property props "toString"); congruence.
Qed.

Lemma join_element_Throw (v : value) (e : exn) :
  join_element v = Throw e -> e = HostError TypeError.
Proof.
  unfold join_element. destruct v; try discriminate; apply ToString_Throw.
Qed.

Lemma Array_join_Throw (sep : string) (elems : list value) (e : exn) :
  Array_join sep elems = Throw e -> e = HostError TypeError.
Proof.
  unfold Array_join.
  destruct (join_elements elems) as [ss|e'] eqn:Hj; [discriminate|].
  intros [= <-]. revert e' Hj.
  induction elems as [|x elems IH]; intros e' Hj; [discriminate|].
  cbn [join_elements] in Hj.
  destruct (join_element x) as [sx|ex] eqn:Hx.
  - destruct (join_elements elems) as [ss|e''] eqn:Hj'; [discriminate|].
    injection Hj as <-. apply IH. reflexivity.
  - injection Hj as <-. eapply join_element_Throw. exact Hx.
Qed.

Lemma Get_Throw (v : value) (key : string) (e : exn) :
  Get v key = Throw e -> e = HostError TypeError.
Proof. destruct v; simpl; congruence. Qed.

Lemma Array_map_Get_Throw (field : string) (l : list value) (e : exn) :
  Array_map (fun t => Get t field) l = Throw e -> e = HostError TypeError.
Proof.
  induction l as [|x l IH]; simpl; [discriminate|].
  destruct (Get x field) as [y|e'] eqn:Hx; simpl.
  - destruct (Array_map _ l); simpl; [discriminate|].
    intros [= <-]. apply IH. reflexivity.
  - intros [= <-]. eapply Get_Throw. exact Hx.
Qed.

Lemma threat_column_Throw (field : string) (item : value) (e : exn) :
  threat_column field item = Throw e -> e = HostError TypeError.
Proof.
  unfold threat_column.
  destruct (Get item "threats") as [threats|e'] eqn:Hg; simpl.
  - destruct threats; try congruence.
    destruct (Array_map _ elems) eqn:Hm; simpl.
    + apply Array_join_Throw.
    + intros [= <-]. eapply Array_map_Get_Throw. exact Hm.
  - intros [= <-]. eapply Get_Throw. exact Hg.
Qed.

Lemma set_innerText_Normal (j : nat) (s : string) (tr tr' : row) :
  set_innerText j s tr = Normal tr' ->
  exists c, tr !! j = Some c /\ tr' = <[j := Cell (contenteditable c) s]> tr.
Proof.
  unfold set_innerText. destruct (tr !! j) as [c|]; [|discriminate].
  intros [= <-]. eauto.
Qed.

Lemma set_innerText_Throw (j : nat) (s : string) (tr : row) (e : exn) :
  set_innerText j s tr = Throw e -> e = HostError TypeError.
Proof. unfold set_innerText. destruct (tr !! j); congruence. Qed.

Lemma with_row_set_Throw (i j : nat) (s : string) (t t' : table) (e : exn) :
  with_row i (set_innerText j s) t = (Throw e, t') -> e = HostError TypeError.
Proof.
  unfold with_row. destruct (tBody t !! i) as [tr|]; [|congruence].
  destruct (set_innerText j s tr) eqn:H; [discriminate|].
  intros [= <- _]. eapply set_innerText_Throw. exact H.
Qed.

(** Whatever [apply_item] throws is a [TypeError]. *)
Lemma apply_item_Throw (item : value) (t t' : table) (e : exn) :
  apply_item item t = (Throw e, t') -> e = HostError TypeError.
Proof.
  rewrite apply_item_unfold.
  destruct (Get item "index") as [idx|] eqn:Hi;
    [|intros [= <- _]; eapply Get_Throw; exact Hi].
  destruct (ToString idx) eqn:Hk;
    [|intros [= <- _]; eapply ToString_Throw; exact Hk].
  destruct (threat_column "type" item) eqn:Ht;
    [|intros [= <- _]; eapply threat_column_Throw; exact Ht].
  destruct (threat_column "description" item) eqn:Hd;
    [|intros [= <- _]; eapply threat_column_Throw; exact Hd].
  destruct (rows_item _ _) as [i|]; [|congruence].
  unfold bind.
  destruct (with_row i (set_innerText 2 _) t) as [[[]|e2] t2] eqn:H2.
  - intros H3. eapply with_row_set_Throw. exact H3.
  - intros [= <- _]. eapply with_row_set_Throw. exact H2.
Qed.

Lemma forEach_apply_item_Throw (items : list value) (t t' : table) (e : exn) :
  forEach apply_item items t = (Throw e, t') -> e = HostError TypeError.
Proof.
  revert t. induction items as [|x items IH]; intros t; simpl.
  - discriminate.
  - unfold bind. destruct (apply_item x t) as [[[]|e1] t1] eqn:Hx.
    + apply IH.
    + intros [= <- _]. eapply apply_item_Throw. exact Hx.
Qed.

(** An entry that refers to no row throws and changes nothing. *)
Lemma apply_item_stray (item : value) (t : table) :
  Spec.item_row (length (tBody t)) item = None ->
  exists e, apply_item item t = (Throw e, t).
Proof.
  unfold Spec.item_row. rewrite apply_item_unfold. unfold rows_item.
  destruct (Get item "index") as [idx|]; [|eauto].
  destruct (ToString idx) as [key|]; [|eauto].
  intros ->.
  destruct (threat_column "type" item); [|eauto].
  destruct (threat_column "description" item); eauto.
Qed.

Lemma with_row_shape (i : nat) (f : row -> completion row) (t : table) :
  (forall tr tr', f tr = Normal tr' -> length tr' = length tr) ->
  tHead (snd (with_row i f t)) = tHead t /\
  map length (tBody (snd (with_row i f t))) = map length (tBody t).
Proof.
  intros Hf. unfold with_row.
  destruct (_ !! i) as [tr|] eqn:Hi; simpl; [|auto].
  destruct (f tr) as [tr'|] eqn:Htr; simpl; [|auto].
  split; [reflexivity|].
  rewrite list_fmap_insert, (Hf _ _ Htr).
  apply list_insert_id. rewrite list_lookup_fmap.
  unfold row in *. rewrite Hi. reflexivity.
Qed.

Lemma set_innerText_length (j : nat) (s : string) (tr tr' : row) :
  set_innerText j s tr = Normal tr' -> length tr' = length tr.
Proof.
  intros (c & _ & ->)%set_innerText_Normal. apply length_insert.
Qed.

(** [apply_item] keeps the header and the number of cells of every
    row, however it ends. *)
Lemma apply_item_shape (item : value) (t : table) :
  tHead (snd (apply_item item t)) = tHead t /\
  map length (tBody (snd (apply_item item t))) = map length (tBody t).
Proof.
  rewrite apply_item_unfold.
  destruct (Get item "index") as [idx|]; [|auto].
  destruct (ToString idx); [|auto].
  destruct (threat_column "type" item) as [types|]; [|auto].
  destruct (threat_column "description" item) as [descs|]; [|auto].
  destruct (rows_item _ _) as [i|]; [|auto].
  unfold bind.
  pose proof (with_row_shape i (set_innerText 2 types) t
                (set_innerText_length 2 types)) as [Hh Hb].
  destruct (with_row i (set_innerText 2 types) t) as [[[]|e2] t2]; simpl in *; [|auto].
  pose proof (with_row_shape i (set_innerText 3 descs) t2
                (set_innerText_length 3 descs)) as [Hh' Hb'].
  split; congruence.
Qed.

Lemma forEach_apply_item_shape (items : list value) (t : table) :
  tHead (snd (forEach apply_item items t)) = tHead t /\
  map length (tBody (snd (forEach apply_item items t))) = map length (tBody t).
Proof.
  apply (forEach_preserves
           (fun t' => tHead t' = tHead t /\
                      map length (tBody t') = map length (tBody t))).
  - intros x t' [Hh Hb]. destruct (apply_item_shape x t') as [Hh' Hb'].
    split; congruence.
  - auto.
Qed.

Lemma shape_length (t t' : table) :
  map length (tBody t') = map length (tBody t) ->
  length (tBody t') = length (tBody t).
Proof.
  intros H. apply (f_equal length) in H. rewrite !length_map in H. exact H.
Qed.

(** The loop stops at an entry that refers to no row: the table is the
    one the entries before it leave, and nothing after it is applied. *)
Lemma forEach_apply_item_stray (pre post : list value) (bad : value) (t : table) :
  Spec.item_row (length (tBody t)) bad = None ->
  exists e,
    forEach apply_item (pre ++ bad :: post) t
    = (Throw e, snd (forEach apply_item pre t)).
Proof.
  intros Hbad. rewrite forEach_app.
  pose proof (forEach_apply_item_shape pre t) as [_ Hlen%shape_length].
  destruct (forEach apply_item pre t) as [[[]|e] t1]; simpl in *; [|eauto].
  rewrite <- Hlen in Hbad. destruct (apply_item_stray bad t1 Hbad) as [e He].
  unfold bind. rewrite He. eauto.
Qed.

Lemma with_columns_length (t : table) :
  length (tBody (Spec.with_columns t)) = length (tBody t).
Proof.
  unfold Spec.with_columns. destruct (_ =? _)%nat; simpl; [|reflexivity].
  apply length_map.
Qed.

Lemma join_elements_strings {A} (f : A -> string) (l : list A) :
  join_elements (map (fun x => VString (f x)) l) = Normal (map f l).
Proof.
  induction l as [|x l IH]; [reflexivity|].
  cbn [map join_elements join_element ToString]. rewrite IH. reflexivity.
Qed.

Lemma Array_map_threats (field : string) (proj : string * string -> string)
    (threats : list (string * string)) :
  (forall td, Get (Spec.threat_object td) field = Normal (VString (proj td))) ->
  Array_map (fun t => Get t field) (map Spec.threat_object threats)
  = Normal (map (fun td => VString (proj td)) threats).
Proof.
  intros Hf. induction threats as [|td l IH]; [reflexivity|].
  cbn [map Array_map]. rewrite Hf, IH. reflexivity.
Qed.

Lemma threat_column_entry (i : Z) (threats : list (string * string)) :
  threat_column "type" (Spec.response_entry i threats)
  = Normal (join LF (map fst threats)) /\
  threat_column "description" (Spec.response_entry i threats)
  = Normal (join LF (map snd threats)).
Proof.
  unfold threat_column, Spec.response_entry. cbn.
  rewrite (Array_map_threats "type" fst) by reflexivity.
  rewrite (Array_map_threats "description" snd) by reflexivity.
  cbn. unfold Array_join. rewrite !join_elements_strings.
  split; reflexivity.
Qed.

(** ** Successful parses *)

Section Apply.

Variable JSON_parse : value -> option value.
Variable JSON_stringify : value -> string.

Local Abbreviation response_try := (Script.response_try JSON_parse).
Local Abbreviation submit_response := (Script.submit_response JSON_parse).
Local Abbreviation parse_response := (Script.parse_response JSON_parse).

Lemma response_try_parsed (data parsed : value) (t : table) :
  Spec.regular t = true ->
  parse_response data = Normal parsed ->
  response_try (Response true data) t =
    match parsed with
    | VArray items => forEach apply_item items (Spec.with_columns t)
    | _ => (Throw (HostError TypeError), Spec.with_columns t)
    end.
Proof.
  intros Hreg Hp. rewrite response_try_ok, Hp. unfold bind.
  rewrite add_output_columns_regular by exact Hreg.
  destruct parsed; reflexivity.
Qed.

(** C1, as the code has it.  An entry of the parsed response that
    refers to no body row is not skipped: applying stops there with a
    [TypeError], which the handler catches and shows in the error
    region.  That entry changes no row, the entries before it are
    applied and those after it are not: the table ends as it would had
    the response stopped just before the stray entry. *)
Theorem stray_entry_stops_application
    (p : page) (data data_pre : value) (pre post : list value) (bad : value) :
  Spec.regular (attack_table p) = true ->
  parse_response data = Normal (VArray (pre ++ bad :: post)) ->
  parse_response data_pre = Normal (VArray pre) ->
  Spec.item_row (length (tBody (attack_table p))) bad = None ->
  attack_table (submit_response (Response true data) p)
  = attack_table (submit_response (Response true data_pre) p) /\
  errorDiv (submit_response (Response true data) p) = HostText TypeError.
Proof.
  intros Hreg Hd Hpre Hbad. unfold Script.submit_response.
  rewrite (response_try_parsed _ _ _ Hreg Hd), (response_try_parsed _ _ _ Hreg Hpre).
  rewrite <- with_columns_length in Hbad.
  destruct (forEach_apply_item_stray pre post bad _ Hbad) as [e He].
  rewrite He. pose proof (forEach_apply_item_Throw _ _ _ _ He) as ->.
  split; [|reflexivity]. cbn [attack_table].
  destruct (forEach apply_item pre _) as [[[]|e'] t1]; reflexivity.
Qed.

(** C6.  On a table with exactly one body row, the response
    [[{"index":0,"threats":[{"type":ty,"description":d}]}]] leaves one
    body row whose first two cells are as before and whose threat cells
    read [ty] and [d], for any string [ty], in the taxonomy or not; no
    error is shown. *)
Theorem single_entry_applied
    (p : page) (tr : row) (data : value) (ty d : string) :
  tBody (attack_table p) = [tr] ->
  Spec.regular (attack_table p) = true ->
  Spec.two_or_four (attack_table p) = true ->
  parse_response data = Normal (VArray [Spec.response_entry 0 [(ty, d)]]) ->
  exists tr',
    tBody (attack_table (submit_response (Response true data) p)) = [tr'] /\
    errorDiv (submit_response (Response true data) p) = errorDiv p /\
    tr' !! 0%nat = tr !! 0%nat /\ tr' !! 1%nat = tr !! 1%nat /\
    Spec.cell_text 2 tr' = Some ty /\ Spec.cell_text 3 tr' = Some d /\
    length tr' = 4%nat.
Proof.
  intros Hrows Hreg H24 Hp. unfold Script.submit_response.
  rewrite (response_try_parsed _ _ _ Hreg Hp).
  destruct p as [[h rows] e]. cbn [attack_table tBody] in *. subst rows.
  cbn [forEach]. unfold bind. rewrite apply_item_unfold.
  destruct (threat_column_entry 0 [(ty, d)]) as [-> ->].
  unfold Spec.two_or_four, Spec.regular in *. cbn in Hreg, H24.
  rewrite andb_true_r in Hreg. apply Nat.eqb_eq in Hreg.
  apply orb_true_iff in H24 as [Hh|Hh]; apply Nat.eqb_eq in Hh;
    rewrite Hh in Hreg.
  - destruct tr as [|a [|b [|c tr]]]; try discriminate Hreg.
    unfold Spec.with_columns. cbn [tHead]. rewrite Hh. cbn.
    eexists. repeat split.
  - destruct tr as [|a [|b [|c [|c' [|c'' tr]]]]]; try discriminate Hreg.
    unfold Spec.with_columns. cbn [tHead]. rewrite Hh. cbn.
    eexists. repeat split.
Qed.

End Apply.

Lemma stray_entry_stops_application_witness :
  attack_table
    (Script.submit_response Examples.JSON_parse
       (Response true (Examples.body_with Examples.stray_text)) Examples.two_rows)
  = attack_table
      (Script.submit_response Examples.JSON_parse
         (Response true (Examples.body_with "[]")) Examples.two_rows) /\
  errorDiv
    (Script.submit_response Examples.JSON_parse
       (Response true (Examples.body_with Examples.stray_text)) Examples.two_rows)
  = HostText TypeError.
Proof.
  apply (stray_entry_stops_application Examples.JSON_parse Examples.two_rows
           (Examples.body_with Examples.stray_text) (Examples.body_with "[]")
           [] [Examples.entry 0 "forgery" "x"] (Spec.response_entry 5 []));
    reflexivity.
Defined.

(** C1 as stated fails: with two rows and the response
    [[{"index":5,"threats":[]},{"index":0,"threats":[...]}]], the error
    region shows a [TypeError] and the entry for row 0 is not applied,
    although alone it would be. *)
Lemma stray_entry_not_skipped :
  errorDiv
    (Script.submit_response Examples.JSON_parse
       (Response true (Examples.body_with Examples.stray_text)) Examples.two_rows)
  = HostText TypeError /\
  Spec.cell_text 2 <$>
    tBody (attack_table
      (Script.submit_response Examples.JSON_parse
         (Response true (Examples.body_with Examples.stray_text)) Examples.two_rows))
    !! 0%nat
  = Some (Some EmptyString) /\
  Spec.cell_text 2 <$>
    tBody (attack_table
      (Script.submit_response Examples.JSON_parse
         (Response true (Examples.body_with Examples.forgery_text)) Examples.two_rows))
    !! 0%nat
  = Some (Some "forgery").
Proof. repeat split. Qed.

Lemma single_entry_applied_witness :
  exists tr',
    tBody (attack_table
      (Script.submit_response Examples.JSON_parse
         (Response true (Examples.body_with Examples.forgery_text)) Examples.one_row))
    = [tr'] /\
    errorDiv
      (Script.submit_response Examples.JSON_parse
         (Response true (Examples.body_with Examples.forgery_text)) Examples.one_row)
    = errorDiv Examples.one_row /\
    tr' !! 0%nat = [Cell true " Login "; Cell true "User login"] !! 0%nat /\
    tr' !! 1%nat = [Cell true " Login "; Cell true "User login"] !! 1%nat /\
    Spec.cell_text 2 tr' = Some "forgery" /\ Spec.cell_text 3 tr' = Some "x" /\
    length tr' = 4%nat.
Proof.
  apply (single_entry_applied Examples.JSON_parse Examples.one_row
           [Cell true " Login "; Cell true "User login"]
           (Examples.body_with Examples.forgery_text) "forgery" "x");
    reflexivity.
Defined.

(** ** What a successful application leaves in each row *)

Lemma apply_item_Normal (item : value) (t t' : table) :
  apply_item item t = (Normal tt, t') ->
  exists i types descs tr tr',
    Spec.item_row (length (tBody t)) item = Some i /\
    threat_column "type" item = Normal types /\
    threat_column "description" item = Normal descs /\
    tBody t !! i = Some tr /\
    tHead t' = tHead t /\
    tBody t' = <[i := tr']> (tBody t) /\
    tr' !! 0%nat = tr !! 0%nat /\ tr' !! 1%nat = tr !! 1%nat /\
    Spec.cell_text 2 tr' = Some types /\ Spec.cell_text 3 tr' = Some descs.
Proof.
  rewrite apply_item_unfold. unfold Spec.item_row, rows_item.
  destruct (Get item "index") as [idx|]; [|discriminate].
  destruct (ToString idx) as [key|]; [|discriminate].
  destruct (threat_column "type" item) as [types|]; [|discriminate].
  destruct (threat_column "description" item) as [descs|]; [|discriminate].
  destruct (array_index _ _) as [i|]; [|discriminate].
  unfold bind.
  destruct (with_row i (set_innerText 2 types) t) as [[[]|e2] t2] eqn:H2;
    [|discriminate].
  intros H3.
  apply with_row_Normal in H2 as (tr & tr2 & Htr & Hs2 & ->).
  apply with_row_Normal in H3 as (tr2' & tr3 & Htr2 & Hs3 & ->).
  cbn [tBody tHead] in *.
  assert (Hi : (i < length (tBody t))%nat) by (eapply lookup_lt_Some; exact Htr).
  rewrite list_lookup_insert_eq in Htr2 by exact Hi. injection Htr2 as <-.
  apply set_innerText_Normal in Hs2 as (c2 & Hc2 & ->).
  apply set_innerText_Normal in Hs3 as (c3 & Hc3 & ->).
  exists i, types, descs, tr, (<[3%nat := Cell (contenteditable c3) descs]>
                                 (<[2%nat := Cell (contenteditable c2) types]> tr)).
  unfold Spec.cell_text, row in *.
  repeat split; try reflexivity; try assumption.
  - apply list_insert_insert_eq.
  - rewrite !list_lookup_insert_ne by lia. reflexivity.
  - rewrite !list_lookup_insert_ne by lia. reflexivity.
  - unfold Spec.cell_text. rewrite list_lookup_insert_ne by lia.
    rewrite list_lookup_insert_eq by (eapply lookup_lt_Some; exact Hc2).
    reflexivity.
  - unfold Spec.cell_text.
    rewrite list_lookup_insert_eq by (eapply lookup_lt_Some; exact Hc3).
    reflexivity.
Qed.

Lemma last_entry_for_snoc (n i : nat) (items : list value) (x : value) :
  Spec.last_entry_for n i (items ++ [x]) =
    if decide (Spec.item_row n x = Some i) then Some x
    else Spec.last_entry_for n i items.
Proof.
  unfold Spec.last_entry_for. rewrite filter_app.
  cbn [filter list_filter]. unfold filter. cbn.
  destruct (decide (Spec.item_row n x = Some i)).
  - apply last_snoc.
  - rewrite app_nil_r. reflexivity.
Qed.

(** After a loop that ends normally, every row keeps its first two
    cells; its threat cells hold what the last entry that refers to it
    gives, or what they held when no entry refers to it. *)
Lemma forEach_apply_item_rows (items : list value) (t t' : table) :
  forEach apply_item items t = (Normal tt, t') ->
  forall i tr, tBody t !! i = Some tr ->
    exists tr',
      tBody t' !! i = Some tr' /\
      tr' !! 0%nat = tr !! 0%nat /\ tr' !! 1%nat = tr !! 1%nat /\
      match Spec.last_entry_for (length (tBody t)) i items with
      | None => tr' = tr
      | Some item =>
          exists types descs,
            threat_column "type" item = Normal types /\
            threat_column "description" item = Normal descs /\
            Spec.cell_text 2 tr' = Some types /\
            Spec.cell_text 3 tr' = Some descs
      end.
Proof.
  revert t'. induction items as [|x items IH] using rev_ind; intros t' Hrun i tr Htr.
  - injection Hrun as <-. exists tr. cbn. repeat split. exact Htr.
  - rewrite forEach_app in Hrun.
    pose proof (forEach_apply_item_shape items t) as [_ Hlen%shape_length].
    destruct (forEach apply_item items t) as [[[]|e] tm] eqn:Hm; [|discriminate].
    cbn [snd] in Hlen. cbn [forEach] in Hrun. unfold bind in Hrun.
    destruct (apply_item x tm) as [[[]|e] tx] eqn:Hx; [|discriminate].
    injection Hrun as <-.
    destruct (IH tm eq_refl i tr Htr) as (trm & Htrm & H0 & H1 & Hlast).
    apply apply_item_Normal in Hx
      as (i0 & types & descs & tr0 & tr0' & Hi0 & Hty & Hde & Htr0 & _ & Hbody
          & H0' & H1' & H2' & H3').
    rewrite Hlen in Hi0. rewrite last_entry_for_snoc, Hbody.
    destruct (decide (Spec.item_row (length (tBody t)) x = Some i)) as [Heq|Hne].
    + assert (i0 = i) by congruence. subst i0.
      assert (tr0 = trm) by congruence. subst tr0.
      exists tr0'. rewrite list_lookup_insert_eq by (eapply lookup_lt_Some; exact Htrm).
      repeat split; try congruence. exists types, descs. auto.
    + assert (i0 <> i) by congruence.
      exists trm. rewrite list_lookup_insert_ne by assumption. auto.
Qed.

Lemma with_row_set_inputs (i j : nat) (s : string) (t : table) :
  (2 <= j)%nat ->
  map (take 2) (tBody (snd (with_row i (set_innerText j s) t)))
  = map (take 2) (tBody t).
Proof.
  intros Hj. unfold with_row.
  destruct (_ !! i) as [tr|] eqn:Hi; simpl; [|reflexivity].
  destruct (set_innerText j s tr) as [tr'|] eqn:Hs; simpl; [|reflexivity].
  apply set_innerText_Normal in Hs as (c & _ & ->).
  unfold row in *.
  rewrite list_fmap_insert, take_insert_ge by exact Hj.
  apply list_insert_id. rewrite list_lookup_fmap, Hi. reflexivity.
Qed.

(** [apply_item] never writes to the first two cells of a row. *)
Lemma apply_item_inputs (item : value) (t : table) :
  map (take 2) (tBody (snd (apply_item item t))) = map (take 2) (tBody t).
Proof.
  rewrite apply_item_unfold.
  destruct (Get item "index") as [idx|]; [|reflexivity].
  destruct (ToString idx); [|reflexivity].
  destruct (threat_column "type" item) as [types|]; [|reflexivity].
  destruct (threat_column "description" item) as [descs|]; [|reflexivity].
  destruct (rows_item _ _) as [i|]; [|reflexivity].
  unfold bind.
  pose proof (with_row_set_inputs i 2 types t (le_n 2)) as H2.
  destruct (with_row i (set_innerText 2 types) t) as [[[]|e2] t2]; simpl in *;
    [|exact H2].
  rewrite <- H2. apply with_row_set_inputs. lia.
Qed.

Lemma forEach_apply_item_inputs (items : list value) (t : table) :
  map (take 2) (tBody (snd (forEach apply_item items t))) = map (take 2) (tBody t).
Proof.
  apply (forEach_preserves
           (fun t' => map (take 2) (tBody t') = map (take 2) (tBody t))).
  - intros x t' H. rewrite apply_item_inputs. exact H.
  - reflexivity.
Qed.

Lemma regular_shape (t t' : table) :
  tHead t' = tHead t ->
  map length (tBody t') = map length (tBody t) ->
  Spec.regular t = true -> Spec.regular t' = true.
Proof.
  intros Hh Hb H. apply regular_Forall. apply regular_Forall in H.
  rewrite Hh.
  assert (H' : Forall (fun n => n = length (tHead t)) (map length (tBody t)))
    by (apply Forall_fmap; exact H).
  rewrite <- Hb in H'. apply Forall_fmap in H'. exact H'.
Qed.

Section Success.

Variable JSON_parse : value -> option value.
Variable JSON_stringify : value -> string.

Local Abbreviation response_try := (Script.response_try JSON_parse).
Local Abbreviation submit_response := (Script.submit_response JSON_parse).
Local Abbreviation parse_response := (Script.parse_response JSON_parse).
Local Abbreviation run := (Script.run JSON_parse JSON_stringify).
Local Abbreviation step := (Script.step JSON_parse JSON_stringify).

Lemma response_try_Normal (o : fetch_outcome) (t t' : table) :
  Spec.regular t = true ->
  response_try o t = (Normal tt, t') ->
  exists data items,
    o = Response true data /\
    parse_response data = Normal (VArray items) /\
    forEach apply_item items (Spec.with_columns t) = (Normal tt, t').
Proof.
  intros Hreg Hrun.
  destruct (Spec.transport_error o || Spec.malformed_response JSON_parse o) eqn:Hf.
  { destruct (response_try_failure JSON_parse o t Hf) as [e He]. congruence. }
  destruct o as [| |[] data]; try discriminate Hf. simpl in Hf.
  destruct (parse_response data) as [parsed|] eqn:Hp; [|discriminate].
  rewrite (response_try_parsed _ _ _ _ Hreg Hp) in Hrun.
  destruct parsed; try discriminate. eauto.
Qed.

(** C8.  When the handler ends without a throw, the answer had a
    success status and a payload that parsed to an array, and in every
    body row the first two cells are as before; the threat cells of a
    row hold exactly what the last entry referring to it gives (the
    joined types and the joined descriptions of that entry alone), and
    for a row no entry refers to they hold what they held before, the
    empty text if the cells did not exist yet. *)
Theorem classification_replaces_threats
    (p : page) (o : fetch_outcome) (t' : table) :
  Spec.regular (attack_table p) = true ->
  Spec.two_or_four (attack_table p) = true ->
  response_try o (attack_table p) = (Normal tt, t') ->
  submit_response o p = {| attack_table := t'; errorDiv := errorDiv p |} /\
  exists data items,
    o = Response true data /\
    parse_response data = Normal (VArray items) /\
    length (tBody t') = length (tBody (attack_table p)) /\
    forall i tr, tBody (attack_table p) !! i = Some tr ->
      exists tr',
        tBody t' !! i = Some tr' /\
        tr' !! 0%nat = tr !! 0%nat /\ tr' !! 1%nat = tr !! 1%nat /\
        match Spec.last_entry_for (length (tBody (attack_table p))) i items with
        | None =>
            Spec.cell_text 2 tr' = Some (default EmptyString (Spec.cell_text 2 tr)) /\
            Spec.cell_text 3 tr' = Some (default EmptyString (Spec.cell_text 3 tr))
        | Some item =>
            exists types descs,
              threat_column "type" item = Normal types /\
              threat_column "description" item = Normal descs /\
              Spec.cell_text 2 tr' = Some types /\
              Spec.cell_text 3 tr' = Some descs
        end.
Proof.
  intros Hreg H24 Hrun. split.
  { unfold Script.submit_response. rewrite Hrun. reflexivity. }
  destruct (response_try_Normal _ _ _ Hreg Hrun) as (data & items & -> & Hp & Hloop).
  exists data, items. split; [reflexivity|]. split; [exact Hp|].
  pose proof (forEach_apply_item_shape items (Spec.with_columns (attack_table p)))
    as [_ Hlen%shape_length].
  rewrite Hloop in Hlen. cbn [snd] in Hlen. rewrite with_columns_length in Hlen.
  split; [exact Hlen|].
  intros i tr Htr.
  destruct (with_columns_row _ _ _ Hreg H24 Htr)
    as (tr1 & Htr1 & H0 & H1 & H2 & H3).
  destruct (forEach_apply_item_rows _ _ _ Hloop i tr1 Htr1)
    as (tr' & Htr' & H0' & H1' & Hlast).
  rewrite with_columns_length in Hlast.
  exists tr'. split; [exact Htr'|]. split; [congruence|]. split; [congruence|].
  destruct (Spec.last_entry_for _ i items) as [item|].
  - exact Hlast.
  - subst tr'. auto.
Qed.

End Success.

Lemma classification_replaces_threats_witness :
  Script.submit_response Examples.JSON_parse
    (Response true (Examples.body_with Examples.forgery_text)) Examples.two_rows
  = {| attack_table :=
         {| tHead := Spec.output_header Examples.header2;
            tBody := [ [Cell true "Login"; Cell true "User login";
                        Cell false "forgery"; Cell false "x"];
                       [Cell true "Upload"; Cell true "File upload";
                        new_cell; new_cell] ] |};
       errorDiv := errorDiv Examples.two_rows |}.
Proof.
  apply (classification_replaces_threats Examples.JSON_parse Examples.two_rows
           (Response true (Examples.body_with Examples.forgery_text)));
    reflexivity.
Defined.

(** ** The number of cells per row along a run *)

Section Columns.

Variable JSON_parse : value -> option value.
Variable JSON_stringify : value -> string.

Local Abbreviation response_try := (Script.response_try JSON_parse).
Local Abbreviation submit_response := (Script.submit_response JSON_parse).
Local Abbreviation parse_response := (Script.parse_response JSON_parse).
Local Abbreviation run := (Script.run JSON_parse JSON_stringify).
Local Abbreviation step := (Script.step JSON_parse JSON_stringify).
Local Abbreviation payload_parsed := (Spec.payload_parsed JSON_parse).

Lemma submit_response_table (o : fetch_outcome) (p : page) :
  attack_table (submit_response o p) = snd (response_try o (attack_table p)).
Proof.
  unfold Script.submit_response.
  destruct (response_try o (attack_table p)) as [[[]|e] t]; reflexivity.
Qed.

Lemma submit_click_table (inp : inputs) (p : page) :
  attack_table (fst (Script.submit_click JSON_stringify inp p)) = attack_table p.
Proof.
  unfold Script.submit_click. destruct (negb _); [reflexivity|].
  destruct (snapshot _); reflexivity.
Qed.

(** The table after an answer: untouched when the payload did not
    parse; otherwise the columns are there and the entries only change
    texts. *)
Lemma submit_response_shape (o : fetch_outcome) (p : page) :
  Spec.regular (attack_table p) = true ->
  let t := attack_table p in
  let t' := attack_table (submit_response o p) in
  if payload_parsed (SubmitResponse o)
  then tHead t' = tHead (Spec.with_columns t) /\
       map length (tBody t') = map length (tBody (Spec.with_columns t)) /\
       map (take 2) (tBody t') = map (take 2) (tBody (Spec.with_columns t))
  else t' = t.
Proof.
  intros Hreg t t'. subst t t'. rewrite submit_response_table.
  unfold Spec.payload_parsed.
  destruct (Spec.transport_error o || Spec.malformed_response JSON_parse o) eqn:Hf.
  - destruct (response_try_failure JSON_parse o (attack_table p) Hf) as [e ->].
    apply orb_true_iff in Hf as [-> | ->]; simpl; rewrite ?andb_false_r;
      reflexivity.
  - apply orb_false_iff in Hf as [Ht Hm]. rewrite Ht, Hm. simpl.
    destruct o as [| |[] data]; try discriminate Ht. simpl in Hm.
    destruct (parse_response data) as [parsed|] eqn:Hp; [|discriminate].
    rewrite (response_try_parsed _ _ _ _ Hreg Hp).
    destruct parsed; try (repeat split; reflexivity).
    destruct (forEach_apply_item_shape elems (Spec.with_columns (attack_table p))).
    auto using forEach_apply_item_inputs.
Qed.

Lemma blank_row_length (h : row) :
  (length h =? 2)%nat || (length h =? 4)%nat = true ->
  length (Spec.blank_row h) = length h.
Proof.
  unfold Spec.blank_row. intros [H|H]%orb_true_iff; apply Nat.eqb_eq in H;
    rewrite H; reflexivity.
Qed.

Lemma step_columns (e : event) (p : page) :
  Spec.regular (attack_table p) = true ->
  Spec.two_or_four (attack_table p) = true ->
  Spec.regular (attack_table (step e p)) = true /\
  length (tHead (attack_table (step e p))) =
    (if payload_parsed e then 4%nat else length (tHead (attack_table p))).
Proof.
  intros Hreg H24. destruct e as [|inp|o].
  - cbn [Script.step attack_table Spec.payload_parsed]. rewrite add_row_blank.
    split; [|reflexivity]. unfold Spec.regular in *. cbn [tHead tBody].
    rewrite forallb_app. apply andb_true_iff. split; [exact Hreg|].
    cbn [forallb]. rewrite andb_true_r.
    apply Nat.eqb_eq, blank_row_length. exact H24.
  - cbn [Script.step Spec.payload_parsed]. rewrite submit_click_table. auto.
  - cbn [Script.step]. pose proof (submit_response_shape o p Hreg) as H.
    cbn zeta in H. destruct (payload_parsed (SubmitResponse o)).
    + destruct H as (Hh & Hb & _).
      destruct (with_columns_regular _ Hreg H24) as (H4 & _ & Hrows).
      split; [|congruence].
      eapply regular_shape; [exact Hh | exact Hb |].
      apply regular_Forall. rewrite H4. exact Hrows.
    + rewrite H. auto.
Qed.

Lemma run_columns (es : list event) (p : page) :
  Spec.regular (attack_table p) = true ->
  Spec.two_or_four (attack_table p) = true ->
  Spec.regular (attack_table (run es p)) = true /\
  length (tHead (attack_table (run es p))) =
    (if existsb payload_parsed es then 4%nat else length (tHead (attack_table p))).
Proof.
  revert p. induction es as [|e es IH]; intros p Hreg H24; [auto|].
  change (run (e :: es) p) with (run es (step e p)).
  destruct (step_columns e p Hreg H24) as [Hreg' Hlen].
  assert (H24' : Spec.two_or_four (attack_table (step e p)) = true).
  { unfold Spec.two_or_four in *. rewrite Hlen.
    destruct (payload_parsed e); [reflexivity | exact H24]. }
  destruct (IH _ Hreg' H24') as [Hr Hl]. split; [exact Hr|].
  rewrite Hl, Hlen. cbn [existsb].
  destruct (payload_parsed e), (existsb payload_parsed es); reflexivity.
Qed.

(** C10, as the code has it.  Along every sequence of events from a
    table with two header cells and two cells per row, every body row
    has as many cells as the header: two until the first answer whose
    payload parses, four from then on, whether or not the entries of
    that answer could then be applied.  At that answer the header gains
    its two headings and each existing row two cells after the two it
    had; later answers insert nothing; a row added under a header of
    four cells has four cells. *)
Theorem output_columns_follow_first_parsed_payload :
  (forall es p,
      length (tHead (attack_table p)) = 2%nat ->
      Spec.regular (attack_table p) = true ->
      Spec.regular (attack_table (run es p)) = true /\
      length (tHead (attack_table (run es p))) =
        (if existsb payload_parsed es then 4%nat else 2%nat)) /\
  (forall o p,
      length (tHead (attack_table p)) = 2%nat ->
      Spec.regular (attack_table p) = true ->
      payload_parsed (SubmitResponse o) = true ->
      tHead (attack_table (submit_response o p))
      = Spec.output_header (tHead (attack_table p)) /\
      map (take 2) (tBody (attack_table (submit_response o p)))
      = tBody (attack_table p) /\
      map length (tBody (attack_table (submit_response o p)))
      = map (fun _ => 4%nat) (tBody (attack_table p))) /\
  (forall o p,
      length (tHead (attack_table p)) = 4%nat ->
      Spec.regular (attack_table p) = true ->
      tHead (attack_table (submit_response o p)) = tHead (attack_table p) /\
      map length (tBody (attack_table (submit_response o p)))
      = map length (tBody (attack_table p))) /\
  (forall t,
      length (tHead t) = 4%nat ->
      add_row t =
        {| tHead := tHead t;
           tBody := tBody t ++ [[editable_cell; editable_cell; new_cell; new_cell]] |}).
Proof.
  split; [|split; [|split]].
  - intros es p Hh Hreg.
    destruct (run_columns es p Hreg) as [Hr Hl].
    { unfold Spec.two_or_four. rewrite Hh. reflexivity. }
    rewrite Hh in Hl. auto.
  - intros o p Hh Hreg Hparsed.
    pose proof (submit_response_shape o p Hreg) as H. cbn zeta in H.
    rewrite Hparsed in H. destruct H as (H1 & H2 & H3).
    unfold Spec.with_columns in *. rewrite Hh in *. cbn in H1, H2, H3.
    apply regular_Forall in Hreg. rewrite Hh in Hreg.
    split; [exact H1|]. split.
    + rewrite H3, map_map. clear -Hreg.
      induction Hreg as [|tr rows Htr _ IH]; [reflexivity|].
      cbn [map]. rewrite IH. f_equal.
      unfold Spec.widen. apply take_app_length'. auto.
    + rewrite H2, map_map. clear -Hreg.
      induction Hreg as [|tr rows Htr _ IH]; [reflexivity|].
      cbn [map]. rewrite IH. f_equal.
      unfold Spec.widen. rewrite length_app, Htr. reflexivity.
  - intros o p Hh Hreg.
    pose proof (submit_response_shape o p Hreg) as H. cbn zeta in H.
    unfold Spec.with_columns in H. rewrite Hh in H. cbn in H.
    destruct (negb _ && negb _).
    + tauto.
    + rewrite H. auto.
  - intros t Hh. rewrite add_row_blank. unfold Spec.blank_row. rewrite Hh.
    reflexivity.
Qed.

End Columns.

Lemma output_columns_follow_first_parsed_payload_witness :
  Spec.regular
    (attack_table
       (Script.run Examples.JSON_parse Examples.JSON_stringify
          [ AddRow; SubmitClick Examples.key;
            SubmitResponse (Response true (Examples.body_with "{}")); AddRow ]
          Examples.empty_page)) = true /\
  length
    (tHead
       (attack_table
          (Script.run Examples.JSON_parse Examples.JSON_stringify
             [ AddRow; SubmitClick Examples.key;
               SubmitResponse (Response true (Examples.body_with "{}")); AddRow ]
             Examples.empty_page)))
  = 4%nat.
Proof.
  apply (proj1 (output_columns_follow_first_parsed_payload
                  Examples.JSON_parse Examples.JSON_stringify)); reflexivity.
Defined.

(** C10 as stated fails: an answer whose payload parses to [{}] ends in
    a [TypeError], so nothing was classified, yet the header and the row
    have four cells afterwards. *)
Lemma columns_added_by_failed_submission :
  length (tHead (attack_table Examples.one_row)) = 2%nat /\
  errorDiv
    (Script.submit_response Examples.JSON_parse
       (Response true (Examples.body_with "{}")) Examples.one_row)
  = HostText TypeError /\
  map (fun tr => Spec.cell_text 2 tr)
    (tBody (attack_table
       (Script.submit_response Examples.JSON_parse
          (Response true (Examples.body_with "{}")) Examples.one_row)))
  = [Some EmptyString] /\
  length
    (tHead (attack_table
       (Script.submit_response Examples.JSON_parse
          (Response true (Examples.body_with "{}")) Examples.one_row)))
  = 4%nat.
Proof. repeat split. Qed.

(** * Further properties of the handlers *)

(** ** White space around the credential and the cell texts *)

Lemma trimStart_all_white_space (s : string) :
  all_white_space s = true -> trimStart s = EmptyString.
Proof.
  induction s as [|c s IH]; simpl; [reflexivity|].
  intros [Hc Hs]%andb_true_iff. rewrite Hc. auto.
Qed.

Lemma trimEnd_all_white_space (s : string) :
  all_white_space s = true -> trimEnd s = EmptyString.
Proof.
  induction s as [|c s IH]; simpl; [reflexivity|].
  intros [Hc Hs]%andb_true_iff. rewrite (IH Hs), Hc. reflexivity.
Qed.

Lemma trimStart_append_l (pre s : string) :
  all_white_space pre = true -> trimStart (pre +:+ s) = trimStart s.
Proof.
  induction pre as [|c pre IH]; simpl; [reflexivity|].
  intros [Hc Hs]%andb_true_iff. rewrite Hc. auto.
Qed.

Lemma trimEnd_append_r (s post : string) :
  all_white_space post = true -> trimEnd (s +:+ post) = trimEnd s.
Proof.
  intros Hpost. induction s as [|c s IH]; simpl.
  - apply trimEnd_all_white_space. exact Hpost.
  - rewrite IH. reflexivity.
Qed.

Lemma trimStart_append_r (s post : string) :
  all_white_space post = true ->
  exists post', all_white_space post' = true /\
                trimStart (s +:+ post) = trimStart s +:+ post'.
Proof.
  intros Hpost. induction s as [|c s IH]; simpl.
  - exists EmptyString. split; [reflexivity|].
    apply trimStart_all_white_space. exact Hpost.
  - destruct (is_white_space c); [exact IH|].
    exists post. split; [exact Hpost | reflexivity].
Qed.

(** White space added before and after a string is trimmed away with
    the white space it already had. *)
Lemma trim_padded (pre s post : string) :
  all_white_space pre = true -> all_white_space post = true ->
  trim (pre +:+ s +:+ post) = trim s.
Proof.
  intros Hpre Hpost. unfold trim. rewrite trimStart_append_l by exact Hpre.
  destruct (trimStart_append_r s post Hpost) as (post' & Hpost' & ->).
  apply trimEnd_append_r. exact Hpost'.
Qed.

Lemma snapshot_row_inputs (idx : nat) (tr : row) :
  snapshot_row idx tr =
    match map (fun c => trim (innerText c)) (take 2 tr) with
    | [s; d] => Some (SurfaceRow idx s d)
    | _ => None
    end.
Proof. destruct tr as [|c0 [|c1 tr]]; reflexivity. Qed.

Lemma snapshot_from_inputs (rows rows' : list row) (k : nat) :
  Spec.trimmed_inputs rows = Spec.trimmed_inputs rows' ->
  imap (fun i => snapshot_row (k + i)) rows
  = imap (fun i => snapshot_row (k + i)) rows'.
Proof.
  revert rows' k. induction rows as [|tr rows IH]; intros [|tr' rows'] k H;
    try discriminate H; [reflexivity|].
  injection H as Htr Hrows. cbn [imap]. f_equal.
  - rewrite !snapshot_row_inputs, Htr. reflexivity.
  - rewrite (imap_ext _ (fun i => snapshot_row (S k + i)) rows),
            (imap_ext _ (fun i => snapshot_row (S k + i)) rows');
      try (intros; simpl; rewrite Nat.add_succ_r; reflexivity).
    apply IH. exact Hrows.
Qed.

Lemma snapshot_short_from (rows : list row) (k : nat) :
  mapM (fun o => o) (imap (fun i => snapshot_row (k + i)) rows) = None
  <-> existsb Spec.short_row rows = true.
Proof.
  revert k. induction rows as [|tr rows IH]; intros k; simpl.
  - split; discriminate.
  - rewrite (imap_ext _ (fun i => snapshot_row (S k + i)));
      [|intros; simpl; rewrite Nat.add_succ_r; reflexivity].
    rewrite Nat.add_0_r. specialize (IH (S k)).
    unfold Spec.short_row at 1.
    destruct tr as [|c0 [|c1 tr]]; simpl; try (split; reflexivity).
    destruct (mapM _ _); simpl.
    + split; [discriminate|]. intros H. apply IH in H. discriminate.
    + split; [intros _; apply IH; reflexivity | reflexivity].
Qed.

Lemma snapshot_short (rows : list row) :
  snapshot rows = None <-> existsb Spec.short_row rows = true.
Proof. exact (snapshot_short_from rows 0). Qed.

Section ClickMore.

Variable JSON_parse : value -> option value.
Variable JSON_stringify : value -> string.

Local Abbreviation submit_click := (Script.submit_click JSON_stringify).
Local Abbreviation submit := (Script.submit JSON_parse JSON_stringify).
Local Abbreviation response_try := (Script.response_try JSON_parse).

(** X1.  The request made at a click depends on the credential and on
    the texts of the first two cells of the rows only through their
    trimmed forms: white space around the credential, or around a
    surface or a description, never changes the request. *)
Theorem request_ignores_surrounding_white_space :
  (forall pre post k ov ov' p,
      all_white_space pre = true -> all_white_space post = true ->
      submit_click (Inputs (pre +:+ k +:+ post) ov) p
      = submit_click (Inputs k ov') p) /\
  (forall inp p p',
      Spec.trimmed_inputs (tBody (attack_table p))
      = Spec.trimmed_inputs (tBody (attack_table p')) ->
      snd (submit_click inp p) = snd (submit_click inp p')).
Proof.
  split.
  - intros pre post k ov ov' p Hpre Hpost. unfold Script.submit_click.
    cbn [api_key_value]. rewrite trim_padded by assumption. reflexivity.
  - intros inp p p' H. unfold Script.submit_click, snapshot.
    destruct (negb _); [reflexivity|].
    assert (E : imap snapshot_row (tBody (attack_table p))
                = imap snapshot_row (tBody (attack_table p')))
      by exact (snapshot_from_inputs _ _ 0 H).
    rewrite E. destruct (mapM _ _); reflexivity.
Qed.

(** X2.  Every request carries the headers [Content-Type:
    application/json] and [Authorization: Bearer k], where [k] is the
    trimmed credential and is not empty. *)
Theorem request_carries_trimmed_credential
    (inp : inputs) (p : page) (req : request) :
  snd (submit_click inp p) = Some req ->
  exists k,
    headers req = [ ("Content-Type", "application/json");
                    ("Authorization", "Bearer " +:+ k) ] /\
    is_empty k = false /\
    Spec.trimmed_of (api_key_value inp) k.
Proof.
  unfold Script.submit_click. cbn [ToBoolean]. rewrite negb_involutive.
  destruct (is_empty (trim (api_key_value inp))) eqn:Hk; [discriminate|].
  destruct (snapshot _); [|discriminate]. cbn [snd]. intros [= <-].
  exists (trim (api_key_value inp)). split; [reflexivity|]. split; [exact Hk|].
  split; [apply trim_decompose|]. split; [apply trim_first | apply trim_last].
Qed.

Lemma quiet_run (es : list event) (p : page) :
  Spec.quiet JSON_parse JSON_stringify es p = true ->
  errorDiv (Script.run JSON_parse JSON_stringify es p) = errorDiv p.
Proof.
  revert p. induction es as [|e es IH]; intros p; [reflexivity|].
  cbn [Spec.quiet]. intros [He Hes]%andb_true_iff.
  change (Script.run JSON_parse JSON_stringify (e :: es) p)
    with (Script.run JSON_parse JSON_stringify es
            (Script.step JSON_parse JSON_stringify e p)).
  rewrite (IH _ Hes). destruct e as [|inp|o]; [reflexivity | discriminate |].
  cbn [Script.step]. unfold Script.submit_response.
  destruct (response_try o (attack_table p)) as [[[]|e] t]; [reflexivity|].
  discriminate.
Qed.

(** X3.  A click on "submit" overwrites the error region, whatever it
    showed: with the message of a missing credential when the trimmed
    credential is empty, with the empty text otherwise.  An answer that
    is applied without a throw leaves the region as it is, as does a
    click on "add row", and an answer that throws shows its message.  So
    the text of a click stays until the next click or the next answer
    that throws, and an answer applied without a throw does not clear
    what a later click put there. *)
Theorem error_region_follows_clicks_and_failures :
  (forall inp p,
      errorDiv (Script.step JSON_parse JSON_stringify (SubmitClick inp) p)
      = Spec.click_text inp) /\
  (forall o p,
      errorDiv (Script.step JSON_parse JSON_stringify (SubmitResponse o) p)
      = match fst (response_try o (attack_table p)) with
        | Normal _ => errorDiv p
        | Throw e => message e
        end) /\
  (forall es1 inp es2 p,
      Spec.quiet JSON_parse JSON_stringify es2
        (Script.step JSON_parse JSON_stringify (SubmitClick inp)
           (Script.run JSON_parse JSON_stringify es1 p)) = true ->
      errorDiv (Script.run JSON_parse JSON_stringify
                  (es1 ++ SubmitClick inp :: es2) p)
      = Spec.click_text inp) /\
  (forall t e1 e2 inp net,
      submit inp net (Page t e1) = submit inp net (Page t e2)).
Proof.
  assert (Hclick : forall inp p,
      errorDiv (Script.step JSON_parse JSON_stringify (SubmitClick inp) p)
      = Spec.click_text inp).
  { intros inp p. cbn [Script.step]. unfold Script.submit_click, Spec.click_text.
    cbn [ToBoolean]. rewrite negb_involutive.
    destruct (is_empty _); [reflexivity|].
    destruct (snapshot _); reflexivity. }
  split; [exact Hclick|]. split; [|split].
  - intros o p. cbn [Script.step]. unfold Script.submit_response.
    destruct (response_try o (attack_table p)) as [[[]|e] t]; reflexivity.
  - intros es1 inp es2 p Hquiet. unfold Script.run.
    rewrite fold_left_app. cbn [fold_left].
    fold (Script.run JSON_parse JSON_stringify es1 p).
    fold (Script.run JSON_parse JSON_stringify es2
            (Script.step JSON_parse JSON_stringify (SubmitClick inp)
               (Script.run JSON_parse JSON_stringify es1 p))).
    rewrite (quiet_run _ _ Hquiet). apply Hclick.
  - intros t e1 e2 inp net. unfold Script.submit, Script.submit_click.
    cbn [attack_table]. destruct (negb _); [reflexivity|].
    destruct (snapshot _); reflexivity.
Qed.

(** X4.  Reading the rows fails exactly when some body row has fewer
    than two cells; a click with a usable credential then ends without a
    request and with the error region empty: the failure is silent. *)
Theorem short_row_fails_silently :
  (forall rows, snapshot rows = None <-> existsb Spec.short_row rows = true) /\
  (forall inp net p,
      is_empty (trim (api_key_value inp)) = false ->
      existsb Spec.short_row (tBody (attack_table p)) = true ->
      submit inp net p = (Page (attack_table p) (Text EmptyString), [])).
Proof.
  split; [exact snapshot_short|].
  intros inp net p Hk Hshort. apply snapshot_short in Hshort.
  unfold Script.submit, Script.submit_click. cbn [ToBoolean].
  rewrite Hk, Hshort. reflexivity.
Qed.

End ClickMore.

(** ** Which row an entry refers to *)

Lemma array_index_spec (len : nat) (key : string) (i : nat) :
  array_index len key = Some i <-> key = pretty i /\ (i < len)%nat.
Proof.
  unfold array_index. split.
  - intros H. apply find_some in H as [Hin Heq].
    apply String.eqb_eq in Heq. apply in_seq in Hin. split; [auto | lia].
  - intros [-> Hi].
    destruct (find _ _) as [j|] eqn:Hfind.
    + apply find_some in Hfind as [_ Heq]. apply String.eqb_eq in Heq.
      apply (inj pretty) in Heq. congruence.
    + apply find_none with (x := i) in Hfind.
      * rewrite String.eqb_refl in Hfind. discriminate.
      * apply in_seq. lia.
Qed.

Lemma pretty_Z_of_nat (i : nat) : pretty (Z.of_nat i) = pretty i.
Proof. destruct i; reflexivity. Qed.

(** X5.  The row an [index] refers to is found through its decimal
    form: among [n] rows, a number refers to row [i] exactly when it is
    [i] and [i < n] (negative and too large numbers refer to no row),
    and a string does so exactly when it is the decimal form of such an
    [i], so that ["1"] and [1] name the same row. *)
Theorem index_resolution (rows : list row) (i : nat) :
  (forall z, rows_item rows (VNumber z) = Some i
             <-> z = Z.of_nat i /\ (i < length rows)%nat) /\
  (forall s, rows_item rows (VString s) = Some i
             <-> s = pretty i /\ (i < length rows)%nat) /\
  (forall key, rows_item rows key = Some i -> is_Some (rows !! i)).
Proof.
  unfold rows_item. split; [|split].
  - intros z. cbn [ToString]. rewrite array_index_spec, <- pretty_Z_of_nat.
    split; intros [H Hi]; (split; [|exact Hi]).
    + apply (inj pretty) in H. exact H.
    + congruence.
  - intros s. cbn [ToString]. apply array_index_spec.
  - intros key. destruct (ToString key); [|discriminate].
    intros [_ Hi]%array_index_spec. apply lookup_lt_is_Some. exact Hi.
Qed.

(** ** The loop over the entries as a function *)

Lemma set_innerText_alter (j : nat) (s : string) (tr : row) :
  (j < length tr)%nat ->
  set_innerText j s tr = Normal (alter (Spec.set_text s) j tr).
Proof.
  intros Hj. unfold set_innerText.
  destruct (lookup_lt_is_Some_2 tr j Hj) as [c Hc]. unfold row in *.
  rewrite Hc. f_equal. apply list_eq. intros k.
  destruct (decide (j = k)) as [<-|Hne].
  - rewrite list_lookup_insert_eq by exact Hj.
    rewrite list_lookup_alter_eq, Hc. reflexivity.
  - rewrite list_lookup_insert_ne, list_lookup_alter_ne by exact Hne.
    reflexivity.
Qed.

Lemma alter_text_length (s : string) (j : nat) (tr : row) :
  length (alter (Spec.set_text s) j tr) = length tr.
Proof. apply length_alter. Qed.

Lemma with_row_wide (i j : nat) (s : string) (t : table) (tr : row) :
  tBody t !! i = Some tr -> (j < length tr)%nat ->
  with_row i (set_innerText j s) t
  = (Normal tt, {| tHead := tHead t;
                   tBody := alter (alter (Spec.set_text s) j) i (tBody t) |}).
Proof.
  intros Hi Hj. unfold with_row.
  destruct (_ !! i) as [tr'|] eqn:E; [|congruence].
  assert (tr' = tr) as -> by congruence. clear Hi.
  rewrite set_innerText_alter by exact Hj. do 2 f_equal.
  apply list_eq. intros k. destruct (decide (i = k)) as [<-|Hne].
  - rewrite list_lookup_insert_eq by (eapply lookup_lt_Some; exact E).
    rewrite list_lookup_alter_eq, E. reflexivity.
  - rewrite list_lookup_insert_ne, list_lookup_alter_ne by exact Hne.
    reflexivity.
Qed.

Lemma entry_effect_row (n : nat) (item : value) (i : nat) (td : string * string) :
  Spec.entry_effect n item = Some (i, td) -> (i < n)%nat.
Proof.
  unfold Spec.entry_effect, Spec.item_row.
  destruct (Get item "index") as [idx|]; [|discriminate].
  destruct (ToString idx) as [key|]; [|discriminate].
  destruct (array_index n _) as [i'|] eqn:Hi; [|discriminate].
  destruct (threat_column "type" item); [|discriminate].
  destruct (threat_column "description" item); [|discriminate].
  intros [= <- _]. apply array_index_spec in Hi. tauto.
Qed.

(** On rows of four cells or more, an entry either writes its two texts
    into its row or throws and changes nothing. *)
Lemma apply_item_wide (item : value) (t : table) :
  Forall (fun tr => 4 <= length tr)%nat (tBody t) ->
  apply_item item t =
    match Spec.entry_effect (length (tBody t)) item with
    | Some eff =>
        (Normal tt, {| tHead := tHead t; tBody := Spec.apply_effect (tBody t) eff |})
    | None => (Throw (HostError TypeError), t)
    end.
Proof.
  intros Hwide. rewrite apply_item_unfold.
  unfold Spec.entry_effect, Spec.item_row, rows_item.
  destruct (Get item "index") as [idx|e] eqn:Hidx;
    [|rewrite (Get_Throw _ _ _ Hidx); reflexivity].
  destruct (ToString idx) as [key|e] eqn:Hkey;
    [|rewrite (ToString_Throw _ _ Hkey); reflexivity].
  destruct (threat_column "type" item) as [types|e] eqn:Hty.
  2:{ rewrite (threat_column_Throw _ _ _ Hty).
      destruct (array_index _ _); reflexivity. }
  destruct (threat_column "description" item) as [descs|e] eqn:Hde.
  2:{ rewrite (threat_column_Throw _ _ _ Hde).
      destruct (array_index _ _); reflexivity. }
  destruct (array_index _ _) as [i|] eqn:Hi; [|reflexivity].
  apply array_index_spec in Hi as [_ Hi].
  destruct (lookup_lt_is_Some_2 (tBody t) i Hi) as [tr Htr].
  assert (Hlen : (4 <= length tr)%nat).
  { rewrite List.Forall_forall in Hwide. apply Hwide.
    apply list_elem_of_In. eapply list_elem_of_lookup_2. exact Htr. }
  unfold bind. rewrite (with_row_wide i 2 types t tr Htr) by lia.
  rewrite (with_row_wide i 3 descs _ (alter (Spec.set_text types) 2%nat tr));
    cbn [tBody tHead].
  - unfold Spec.apply_effect, Spec.write_threats. cbn [fst snd].
    rewrite list_alter_alter_eq. reflexivity.
  - rewrite list_lookup_alter_eq. unfold row in *. rewrite Htr. reflexivity.
  - rewrite alter_text_length. lia.
Qed.

Lemma write_threats_length (types descs : string) (tr : row) :
  length (Spec.write_threats types descs tr) = length tr.
Proof. unfold Spec.write_threats. rewrite !alter_text_length. reflexivity. Qed.

Lemma apply_effect_wide (rows : list row) (eff : nat * (string * string)) :
  Forall (fun tr => 4 <= length tr)%nat rows ->
  Forall (fun tr => 4 <= length tr)%nat (Spec.apply_effect rows eff).
Proof.
  intros H. unfold Spec.apply_effect. apply Forall_alter; [exact H|].
  intros tr _ Htr. rewrite write_threats_length. exact Htr.
Qed.

Lemma apply_effect_length (rows : list row) (eff : nat * (string * string)) :
  length (Spec.apply_effect rows eff) = length rows.
Proof. apply length_alter. Qed.

(** The loop on rows of four cells or more: the entries are applied in
    order up to the first that cannot be, and the loop throws exactly
    when there is one such. *)
Lemma forEach_apply_item_wide (items : list value) (t : table) :
  Forall (fun tr => 4 <= length tr)%nat (tBody t) ->
  forEach apply_item items t =
    (if Spec.all_apply (length (tBody t)) items
     then Normal tt else Throw (HostError TypeError),
     {| tHead := tHead t;
        tBody := foldl Spec.apply_effect (tBody t)
                   (Spec.applied_effects (length (tBody t)) items) |}).
Proof.
  revert t. induction items as [|x items IH]; intros t Hwide.
  - destruct t. reflexivity.
  - cbn [forEach Spec.all_apply Spec.applied_effects forallb]. unfold bind.
    rewrite apply_item_wide by exact Hwide.
    destruct (Spec.entry_effect _ x) as [eff|] eqn:Heff.
    + rewrite IH by (apply apply_effect_wide; exact Hwide).
      cbn [tBody tHead foldl]. rewrite apply_effect_length.
      rewrite bool_decide_eq_true_2 by eauto. reflexivity.
    + rewrite bool_decide_eq_false_2 by (intros [? ?]; discriminate).
      destruct t. reflexivity.
Qed.

Lemma write_threats_overwrite (a b c d : string) (tr : row) :
  Spec.write_threats a b (Spec.write_threats c d tr) = Spec.write_threats a b tr.
Proof.
  unfold Spec.write_threats, row.
  rewrite (list_alter_alter_ne (Spec.set_text a) (Spec.set_text d)) by lia.
  rewrite !list_alter_alter_eq. reflexivity.
Qed.

Lemma last_effect_snoc (j : nat) (effs : list (nat * (string * string)))
    (eff : nat * (string * string)) :
  Spec.last_effect j (effs ++ [eff]) =
    if decide (fst eff = j) then Some (snd eff) else Spec.last_effect j effs.
Proof.
  unfold Spec.last_effect. rewrite filter_app.
  cbn [filter list_filter]. unfold filter. cbn.
  destruct (decide (fst eff = j)).
  - rewrite last_snoc. reflexivity.
  - rewrite app_nil_r. reflexivity.
Qed.

(** Row [j] after a sequence of effects: the texts last written to it,
    over the row as it was. *)
Lemma foldl_apply_effect_lookup (effs : list (nat * (string * string)))
    (rows : list row) (j : nat) :
  foldl Spec.apply_effect rows effs !! j =
    match Spec.last_effect j effs with
    | Some td => Spec.write_threats (fst td) (snd td) <$> rows !! j
    | None => rows !! j
    end.
Proof.
  induction effs as [|eff effs IH] using rev_ind; [reflexivity|].
  rewrite foldl_snoc, last_effect_snoc. unfold Spec.apply_effect at 1.
  destruct (decide (fst eff = j)) as [<-|Hne].
  - rewrite list_lookup_alter_eq, IH.
    destruct (Spec.last_effect _ effs) as [td|]; [|reflexivity].
    destruct (rows !! fst eff); [|reflexivity]. cbn.
    rewrite write_threats_overwrite. reflexivity.
  - rewrite list_lookup_alter_ne by exact Hne. exact IH.
Qed.

Lemma foldl_apply_effect_twice (effs : list (nat * (string * string)))
    (rows : list row) :
  foldl Spec.apply_effect (foldl Spec.apply_effect rows effs) effs
  = foldl Spec.apply_effect rows effs.
Proof.
  apply list_eq. intros j. rewrite (foldl_apply_effect_lookup effs (foldl _ _ _)).
  destruct (Spec.last_effect j effs) as [td|] eqn:Hlast; [|reflexivity].
  rewrite foldl_apply_effect_lookup, Hlast.
  destruct (rows !! j); [|reflexivity]. cbn.
  rewrite write_threats_overwrite. reflexivity.
Qed.

Lemma foldl_apply_effect_length (effs : list (nat * (string * string)))
    (rows : list row) :
  length (foldl Spec.apply_effect rows effs) = length rows.
Proof.
  revert rows. induction effs as [|eff effs IH]; intros rows; [reflexivity|].
  cbn [foldl]. rewrite IH. apply apply_effect_length.
Qed.

Lemma foldl_apply_effect_shape (effs : list (nat * (string * string)))
    (rows : list row) :
  map length (foldl Spec.apply_effect rows effs) = map length rows.
Proof.
  revert rows. induction effs as [|eff effs IH]; intros rows; [reflexivity|].
  cbn [foldl]. rewrite IH. unfold Spec.apply_effect.
  apply list_eq. intros k. rewrite !list_lookup_fmap.
  destruct (decide (fst eff = k)) as [<-|Hne].
  - rewrite list_lookup_alter_eq. destruct (_ !! fst eff); [|reflexivity].
    cbn. rewrite write_threats_length. reflexivity.
  - rewrite list_lookup_alter_ne by exact Hne. reflexivity.
Qed.

Lemma with_columns_wide (t : table) :
  Spec.regular t = true -> Spec.two_or_four t = true ->
  Forall (fun tr => 4 <= length tr)%nat (tBody (Spec.with_columns t)).
Proof.
  intros Hreg H24. destruct (with_columns_regular t Hreg H24) as (_ & _ & H).
  eapply Forall_impl; [exact H|]. intros tr ->. reflexivity.
Qed.

Lemma after_entries_regular (t : table) (items : list value) :
  Spec.regular t = true -> Spec.two_or_four t = true ->
  Spec.regular (Spec.after_entries t items) = true /\
  length (tHead (Spec.after_entries t items)) = 4%nat /\
  length (tBody (Spec.after_entries t items)) = length (tBody t).
Proof.
  intros Hreg H24. destruct (with_columns_regular t Hreg H24) as (H4 & Hn & Hrows).
  unfold Spec.after_entries. cbn [tHead tBody]. split; [|split].
  - eapply (regular_shape (Spec.with_columns t)).
    + reflexivity.
    + apply foldl_apply_effect_shape.
    + apply regular_Forall. rewrite H4. exact Hrows.
  - exact H4.
  - rewrite foldl_apply_effect_length. exact Hn.
Qed.

Lemma with_columns_four (t : table) :
  length (tHead t) = 4%nat -> Spec.with_columns t = t.
Proof. intros H. unfold Spec.with_columns. rewrite H. reflexivity. Qed.

Section ResponseMore.

Variable JSON_parse : value -> option value.
Variable JSON_stringify : value -> string.

Local Abbreviation response_try := (Script.response_try JSON_parse).
Local Abbreviation submit_response := (Script.submit_response JSON_parse).
Local Abbreviation parse_response := (Script.parse_response JSON_parse).
Local Abbreviation run := (Script.run JSON_parse JSON_stringify).
Local Abbreviation step := (Script.step JSON_parse JSON_stringify).

(** The page after an answer whose payload parsed to an array. *)
Lemma submit_response_entries (p : page) (data : value) (items : list value) :
  Spec.regular (attack_table p) = true ->
  Spec.two_or_four (attack_table p) = true ->
  parse_response data = Normal (VArray items) ->
  submit_response (Response true data) p =
    {| attack_table := Spec.after_entries (attack_table p) items;
       errorDiv := if Spec.all_apply (length (tBody (attack_table p))) items
                   then errorDiv p else HostText TypeError |}.
Proof.
  intros Hreg H24 Hp. unfold Script.submit_response.
  rewrite (response_try_parsed _ _ _ _ Hreg Hp).
  rewrite forEach_apply_item_wide by (apply with_columns_wide; assumption).
  rewrite with_columns_length. unfold Spec.after_entries.
  destruct (Spec.all_apply _ items); reflexivity.
Qed.

End ResponseMore.

(** ** What the entries of a response do, entry by entry *)

Lemma entry_effect_entry (n i : nat) (threats : list (string * string)) :
  (i < n)%nat ->
  Spec.entry_effect n (Spec.response_entry (Z.of_nat i) threats)
  = Some (i, (join LF (map fst threats), join LF (map snd threats))).
Proof.
  intros Hi. unfold Spec.entry_effect, Spec.item_row.
  destruct (threat_column_entry (Z.of_nat i) threats) as [-> ->].
  change (Get (Spec.response_entry (Z.of_nat i) threats) "index")
    with (Normal (VNumber (Z.of_nat i))).
  cbn [ToString]. rewrite pretty_Z_of_nat.
  rewrite (proj2 (array_index_spec n (pretty i) i)) by auto. reflexivity.
Qed.

Lemma entry_effect_stray (n : nat) (z : Z) (threats : list (string * string)) :
  (z < 0 \/ Z.of_nat n <= z)%Z ->
  Spec.entry_effect n (Spec.response_entry z threats) = None.
Proof.
  intros Hz. unfold Spec.entry_effect, Spec.item_row.
  change (Get (Spec.response_entry z threats) "index") with (Normal (VNumber z)).
  cbn [ToString].
  destruct (array_index n (pretty z)) as [i|] eqn:Hi; [|reflexivity].
  apply array_index_spec in Hi as [Hkey Hi].
  rewrite <- pretty_Z_of_nat in Hkey. apply (inj pretty) in Hkey. lia.
Qed.

Lemma entry_effect_not_array (n : nat) (idx threats : value) :
  (forall ts, threats <> VArray ts) ->
  Spec.entry_effect n (VObject [("index", idx); ("threats", threats)]) = None.
Proof.
  intros Hts. unfold Spec.entry_effect.
  assert (threat_column "type" (VObject [("index", idx); ("threats", threats)])
          = Throw (HostError TypeError)) as ->.
  { unfold threat_column. cbn. destruct threats; try reflexivity.
    destruct (Hts elems). reflexivity. }
  destruct (Spec.item_row _ _); reflexivity.
Qed.

Lemma write_threats_cells (a b : string) (tr : row) :
  (4 <= length tr)%nat ->
  Spec.cell_text 2 (Spec.write_threats a b tr) = Some a /\
  Spec.cell_text 3 (Spec.write_threats a b tr) = Some b /\
  take 2 (Spec.write_threats a b tr) = take 2 tr /\
  drop 4 (Spec.write_threats a b tr) = drop 4 tr /\
  map contenteditable (Spec.write_threats a b tr) = map contenteditable tr.
Proof.
  intros Hlen.
  destruct tr as [|c0 [|c1 [|c2 [|c3 tr]]]]; simpl in Hlen; try lia.
  repeat split.
Qed.

Lemma all_apply_app (n : nat) (l1 l2 : list value) :
  Spec.all_apply n (l1 ++ l2) = Spec.all_apply n l1 && Spec.all_apply n l2.
Proof. apply forallb_app. Qed.

Lemma applied_effects_app (n : nat) (l1 l2 : list value) :
  Spec.all_apply n l1 = true ->
  Spec.applied_effects n (l1 ++ l2)
  = Spec.applied_effects n l1 ++ Spec.applied_effects n l2.
Proof.
  induction l1 as [|x l1 IH]; [reflexivity|].
  cbn [Spec.all_apply forallb app Spec.applied_effects].
  intros [Hx Hl]%andb_true_iff. apply bool_decide_eq_true in Hx as [eff Hx].
  rewrite Hx. cbn [app]. f_equal. apply IH. exact Hl.
Qed.

Lemma applied_effects_omap (n : nat) (items : list value) :
  Spec.all_apply n items = true ->
  Spec.applied_effects n items = omap (Spec.entry_effect n) items.
Proof.
  induction items as [|x items IH]; [reflexivity|].
  cbn [Spec.all_apply forallb Spec.applied_effects omap list_omap].
  intros [Hx Hl]%andb_true_iff. apply bool_decide_eq_true in Hx as [eff Hx].
  rewrite Hx. f_equal. apply IH. exact Hl.
Qed.

Lemma all_apply_Forall (n : nat) (items : list value) :
  Spec.all_apply n items = true
  <-> Forall (fun item => is_Some (Spec.entry_effect n item)) items.
Proof.
  unfold Spec.all_apply. rewrite forallb_forall, List.Forall_forall.
  split; intros H x Hx; specialize (H x Hx).
  - apply bool_decide_eq_true in H. exact H.
  - apply bool_decide_eq_true. exact H.
Qed.

Lemma foldl_apply_effect_Permutation (effs effs' : list (nat * (string * string))) :
  effs ≡ₚ effs' -> NoDup (map fst effs) ->
  forall rows, foldl Spec.apply_effect rows effs = foldl Spec.apply_effect rows effs'.
Proof.
  induction 1 as [|x l l' Hperm IH|x y l|l l' l'' H1 IH1 H2 IH2]; intros Hnd rows.
  - reflexivity.
  - cbn [foldl]. apply IH. apply NoDup_cons in Hnd. tauto.
  - cbn [foldl]. f_equal. unfold Spec.apply_effect.
    apply list_alter_alter_ne.
    cbn [map] in Hnd. apply NoDup_cons in Hnd as [Hy _].
    intros Heq. apply Hy. rewrite Heq. left.
  - rewrite IH1 by exact Hnd. apply IH2.
    rewrite <- H1. exact Hnd.
Qed.

Section Entries.

Variable JSON_parse : value -> option value.
Variable JSON_stringify : value -> string.

Local Abbreviation response_try := (Script.response_try JSON_parse).
Local Abbreviation submit_response := (Script.submit_response JSON_parse).
Local Abbreviation parse_response := (Script.parse_response JSON_parse).
Local Abbreviation run := (Script.run JSON_parse JSON_stringify).
Local Abbreviation step := (Script.step JSON_parse JSON_stringify).

(** X6.  An answer with one entry for an existing row [i], with any
    number of threats, shows no error and changes the table with its
    columns in row [i] only: the two threat cells of that row get the
    types and the descriptions joined by line feeds (the empty text for
    no threat), the other cells of the row and all other rows stay as
    they are. *)
Theorem entry_rewrites_only_its_row
    (p : page) (data : value) (i : nat) (threats : list (string * string)) :
  Spec.regular (attack_table p) = true ->
  Spec.two_or_four (attack_table p) = true ->
  (i < length (tBody (attack_table p)))%nat ->
  parse_response data
  = Normal (VArray [Spec.response_entry (Z.of_nat i) threats]) ->
  submit_response (Response true data) p =
    {| attack_table :=
         {| tHead := tHead (Spec.with_columns (attack_table p));
            tBody := alter (Spec.write_threats (join LF (map fst threats))
                                               (join LF (map snd threats)))
                           i (tBody (Spec.with_columns (attack_table p))) |};
       errorDiv := errorDiv p |} /\
  forall tr, tBody (Spec.with_columns (attack_table p)) !! i = Some tr ->
    let tr' := Spec.write_threats (join LF (map fst threats))
                                  (join LF (map snd threats)) tr in
    Spec.cell_text 2 tr' = Some (join LF (map fst threats)) /\
    Spec.cell_text 3 tr' = Some (join LF (map snd threats)) /\
    take 2 tr' = take 2 tr /\ drop 4 tr' = drop 4 tr /\
    map contenteditable tr' = map contenteditable tr.
Proof.
  intros Hreg H24 Hi Hp. split.
  - rewrite (submit_response_entries _ _ _ _ Hreg H24 Hp).
    unfold Spec.after_entries, Spec.all_apply.
    cbn [Spec.applied_effects forallb].
    rewrite (entry_effect_entry _ _ _ Hi).
    rewrite bool_decide_eq_true_2 by eauto. reflexivity.
  - intros tr Htr. apply write_threats_cells.
    pose proof (with_columns_wide _ Hreg H24) as Hwide.
    rewrite List.Forall_forall in Hwide. apply Hwide.
    apply list_elem_of_In. eapply list_elem_of_lookup_2. exact Htr.
Qed.

(** X7.  An entry that cannot be applied, because its index names no
    row or because its [threats] is not an array, ends the loop with a
    [TypeError] before any cell of its row is written: the table is the
    one left by the entries before it. *)
Theorem failing_entry_writes_nothing :
  (forall p data pre x post,
      Spec.regular (attack_table p) = true ->
      Spec.two_or_four (attack_table p) = true ->
      parse_response data = Normal (VArray (pre ++ x :: post)) ->
      Spec.all_apply (length (tBody (attack_table p))) pre = true ->
      Spec.entry_effect (length (tBody (attack_table p))) x = None ->
      submit_response (Response true data) p =
        {| attack_table := Spec.after_entries (attack_table p) pre;
           errorDiv := HostText TypeError |}) /\
  (forall n idx threats,
      (forall ts, threats <> VArray ts) ->
      Spec.entry_effect n (VObject [("index", idx); ("threats", threats)]) = None) /\
  (forall n z threats,
      (z < 0 \/ Z.of_nat n <= z)%Z ->
      Spec.entry_effect n (Spec.response_entry z threats) = None).
Proof.
  split; [|split; [exact entry_effect_not_array | exact entry_effect_stray]].
  intros p data pre x post Hreg H24 Hp Hpre Hx.
  rewrite (submit_response_entries _ _ _ _ Hreg H24 Hp).
  unfold Spec.after_entries.
  rewrite all_apply_app, Hpre, applied_effects_app by exact Hpre.
  cbn [Spec.all_apply Spec.applied_effects forallb]. rewrite Hx.
  rewrite bool_decide_eq_false_2 by (intros [? ?]; discriminate).
  rewrite app_nil_r. reflexivity.
Qed.

(** X8.  Handling the same answer a second time changes nothing: the
    page after two deliveries of an answer is the page after one,
    whether the answer was applied, refused, or applied in part. *)
Theorem answer_handled_twice (o : fetch_outcome) (p : page) :
  Spec.regular (attack_table p) = true ->
  Spec.two_or_four (attack_table p) = true ->
  submit_response o (submit_response o p) = submit_response o p.
Proof.
  intros Hreg H24.
  destruct (Spec.transport_error o || Spec.malformed_response JSON_parse o) eqn:Hf.
  { unfold Script.submit_response at 2.
    destruct (response_try_failure JSON_parse o (attack_table p) Hf) as [e He].
    rewrite He. unfold Script.submit_response. cbn [attack_table].
    rewrite He. reflexivity. }
  apply orb_false_iff in Hf as [Ht Hm].
  destruct o as [| |[] data]; try discriminate Ht. simpl in Hm.
  destruct (parse_response data) as [parsed|] eqn:Hp; [|discriminate].
  destruct (with_columns_regular _ Hreg H24) as (H4 & Hn & Hrows).
  assert (Hreg' : Spec.regular (Spec.with_columns (attack_table p)) = true).
  { apply regular_Forall. rewrite H4. exact Hrows. }
  assert (Hitems : forall items, parsed = VArray items ->
            submit_response (Response true data) (submit_response (Response true data) p)
            = submit_response (Response true data) p).
  { intros items ->.
    destruct (after_entries_regular (attack_table p) items Hreg H24)
      as (Ha & Ha4 & Han).
    rewrite (submit_response_entries _ _ _ _ Hreg H24 Hp).
    rewrite (submit_response_entries _ _ _ items); cbn [attack_table errorDiv].
    - rewrite Han. f_equal.
      + unfold Spec.after_entries at 1.
        rewrite (with_columns_four _ Ha4), Han.
        unfold Spec.after_entries. cbn [tHead tBody]. f_equal.
        apply foldl_apply_effect_twice.
      + destruct (Spec.all_apply _ items); reflexivity.
    - exact Ha.
    - unfold Spec.two_or_four. rewrite Ha4. reflexivity.
    - exact Hp. }
  destruct parsed; try (eapply Hitems; reflexivity);
    unfold Script.submit_response;
    rewrite (response_try_parsed _ _ _ _ Hreg Hp); cbn [attack_table];
    rewrite (response_try_parsed _ _ _ _ Hreg' Hp);
    rewrite (with_columns_four _ H4); reflexivity.
Qed.

(** X9.  When every entry of an answer can be applied and no two
    entries refer to the same row, the order of the entries does not
    matter: an answer with the same entries in another order leaves the
    same page. *)
Theorem entry_order_irrelevant
    (p : page) (data data' : value) (items items' : list value) :
  Spec.regular (attack_table p) = true ->
  Spec.two_or_four (attack_table p) = true ->
  parse_response data = Normal (VArray items) ->
  parse_response data' = Normal (VArray items') ->
  items ≡ₚ items' ->
  Spec.all_apply (length (tBody (attack_table p))) items = true ->
  NoDup (map fst (Spec.applied_effects (length (tBody (attack_table p))) items)) ->
  submit_response (Response true data) p = submit_response (Response true data') p.
Proof.
  intros Hreg H24 Hp Hp' Hperm Hall Hnd.
  assert (Hall' : Spec.all_apply (length (tBody (attack_table p))) items' = true).
  { apply all_apply_Forall. rewrite <- Hperm. apply all_apply_Forall. exact Hall. }
  rewrite (submit_response_entries _ _ _ _ Hreg H24 Hp).
  rewrite (submit_response_entries _ _ _ _ Hreg H24 Hp').
  rewrite Hall, Hall'. f_equal. unfold Spec.after_entries. f_equal.
  apply foldl_apply_effect_Permutation; [|exact Hnd].
  rewrite !applied_effects_omap by assumption. rewrite Hperm. reflexivity.
Qed.

End Entries.

(** ** Answers and rows over time *)

Lemma with_columns_inputs (t : table) :
  Spec.regular t = true -> Spec.two_or_four t = true ->
  map (take 2) (tBody (Spec.with_columns t)) = map (take 2) (tBody t).
Proof.
  intros Hreg%regular_Forall H24. unfold Spec.with_columns.
  destruct (length (tHead t) =? 2)%nat eqn:Hh; [|reflexivity].
  apply Nat.eqb_eq in Hh. rewrite Hh in Hreg. cbn [tBody].
  rewrite map_map. clear -Hreg.
  induction Hreg as [|tr rows Htr _ IH]; [reflexivity|].
  cbn [map]. rewrite IH. f_equal.
  unfold Spec.widen. apply take_app_le. lia.
Qed.

Lemma with_columns_head (t : table) :
  tHead (Spec.with_columns t) =
    if (length (tHead t) =? 2)%nat then Spec.output_header (tHead t) else tHead t.
Proof. unfold Spec.with_columns. destruct (_ =? _)%nat; reflexivity. Qed.

Section Time.

Variable JSON_parse : value -> option value.
Variable JSON_stringify : value -> string.

Local Abbreviation response_try := (Script.response_try JSON_parse).
Local Abbreviation submit_response := (Script.submit_response JSON_parse).
Local Abbreviation parse_response := (Script.parse_response JSON_parse).
Local Abbreviation run := (Script.run JSON_parse JSON_stringify).
Local Abbreviation step := (Script.step JSON_parse JSON_stringify).
Local Abbreviation payload_parsed := (Spec.payload_parsed JSON_parse).

(** X10.  An answer is matched against the rows present when it
    arrives, not those present at the click: an entry whose index is the
    number of rows at the click writes into a row added while the answer
    was awaited, and ends in a [TypeError] when no row was added. *)
Theorem answer_reaches_row_added_meanwhile
    (p : page) (inp : inputs) (data : value) (threats : list (string * string)) :
  Spec.regular (attack_table p) = true ->
  Spec.two_or_four (attack_table p) = true ->
  parse_response data
  = Normal (VArray [Spec.response_entry
                      (Z.of_nat (length (tBody (attack_table p)))) threats]) ->
  (exists tr,
      tBody (attack_table
               (run [SubmitClick inp; AddRow; SubmitResponse (Response true data)] p))
        !! length (tBody (attack_table p)) = Some tr /\
      Spec.cell_text 2 tr = Some (join LF (map fst threats)) /\
      Spec.cell_text 3 tr = Some (join LF (map snd threats))) /\
  errorDiv (run [SubmitClick inp; SubmitResponse (Response true data)] p)
  = HostText TypeError.
Proof.
  intros Hreg H24 Hp. set (n := length (tBody (attack_table p))) in *.
  assert (Hclick : attack_table (step (SubmitClick inp) p) = attack_table p)
    by apply submit_click_table.
  split.
  - change (run [SubmitClick inp; AddRow; SubmitResponse (Response true data)] p)
      with (submit_response (Response true data)
              (step AddRow (step (SubmitClick inp) p))).
    remember (step (SubmitClick inp) p) as p1 eqn:Ep1.
    destruct (step_columns JSON_parse JSON_stringify AddRow p1) as [Hreg2 Hh2];
      [rewrite Hclick; assumption..|].
    assert (Hn2 : length (tBody (attack_table (step AddRow p1))) = S n).
    { cbn [Script.step attack_table]. rewrite add_row_blank.
      cbn [tBody]. rewrite length_app, Hclick. cbn. fold n. lia. }
    remember (step AddRow p1) as p2 eqn:Ep2.
    assert (H242 : Spec.two_or_four (attack_table p2) = true).
    { unfold Spec.two_or_four in *. rewrite Hh2. cbn. rewrite Hclick. exact H24. }
    rewrite (submit_response_entries _ _ _ _ Hreg2 H242 Hp).
    cbn [attack_table]. unfold Spec.after_entries. cbn [tBody].
    rewrite Hn2. cbn [Spec.applied_effects].
    rewrite entry_effect_entry by lia. cbn [foldl].
    unfold Spec.apply_effect. cbn [fst snd].
    rewrite list_lookup_alter_eq.
    destruct (lookup_lt_is_Some_2 (tBody (Spec.with_columns (attack_table p2))) n)
      as [tr Htr].
    { rewrite with_columns_length, Hn2. lia. }
    unfold row in *. rewrite Htr. cbn. eexists. split; [reflexivity|].
    pose proof (with_columns_wide _ Hreg2 H242) as Hwide.
    rewrite List.Forall_forall in Hwide.
    destruct (write_threats_cells (join LF (map fst threats))
                (join LF (map snd threats)) tr) as (H2 & H3 & _).
    { apply Hwide. apply list_elem_of_In. eapply list_elem_of_lookup_2. exact Htr. }
    auto.
  - change (run [SubmitClick inp; SubmitResponse (Response true data)] p)
      with (submit_response (Response true data) (step (SubmitClick inp) p)).
    assert (Hreg1 : Spec.regular (attack_table (step (SubmitClick inp) p)) = true)
      by (rewrite Hclick; exact Hreg).
    assert (H241 : Spec.two_or_four (attack_table (step (SubmitClick inp) p)) = true)
      by (rewrite Hclick; exact H24).
    rewrite (submit_response_entries _ _ _ _ Hreg1 H241 Hp).
    cbn [errorDiv]. rewrite Hclick. fold n.
    unfold Spec.all_apply. cbn [forallb].
    rewrite entry_effect_stray by lia.
    rewrite bool_decide_eq_false_2 by (intros [? ?]; discriminate). reflexivity.
Qed.

(** X11.  A payload that parses to something other than an array (an
    object, a number, a string, [null]) ends in a [TypeError] after the
    output columns were inserted: the table is the one with its columns,
    and no text of a row is written. *)
Theorem payload_not_an_array (p : page) (data parsed : value) :
  Spec.regular (attack_table p) = true ->
  parse_response data = Normal parsed ->
  (forall items, parsed <> VArray items) ->
  submit_response (Response true data) p =
    {| attack_table := Spec.with_columns (attack_table p);
       errorDiv := HostText TypeError |}.
Proof.
  intros Hreg Hp Hna. unfold Script.submit_response.
  rewrite (response_try_parsed _ _ _ _ Hreg Hp).
  destruct parsed; try reflexivity. destruct (Hna elems). reflexivity.
Qed.

Lemma step_rows (e : event) (p : page) :
  Spec.regular (attack_table p) = true ->
  Spec.two_or_four (attack_table p) = true ->
  map (take 2) (tBody (attack_table (step e p)))
  = map (take 2) (tBody (attack_table p))
    ++ replicate (Spec.add_row_count [e]) [editable_cell; editable_cell] /\
  tHead (attack_table (step e p)) =
    (if payload_parsed e then tHead (Spec.with_columns (attack_table p))
     else tHead (attack_table p)).
Proof.
  intros Hreg H24. destruct e as [|inp|o].
  - cbn [Script.step attack_table Spec.payload_parsed]. rewrite add_row_blank.
    cbn [tHead tBody]. split; [|reflexivity].
    rewrite map_app. f_equal.
  - cbn [Script.step Spec.payload_parsed]. rewrite submit_click_table.
    cbn. rewrite app_nil_r. auto.
  - cbn [Script.step]. pose proof (submit_response_shape JSON_parse o p Hreg) as H.
    cbn zeta in H. change (Spec.add_row_count [SubmitResponse o]) with 0%nat.
    cbn [replicate]. rewrite app_nil_r.
    destruct (payload_parsed (SubmitResponse o)).
    + destruct H as (Hh & _ & Hin). split; [|exact Hh].
      rewrite Hin. apply with_columns_inputs; assumption.
    + rewrite H. auto.
Qed.

Lemma add_row_count_cons (e : event) (es : list event) :
  Spec.add_row_count (e :: es) = (Spec.add_row_count [e] + Spec.add_row_count es)%nat.
Proof. unfold Spec.add_row_count. destruct e; reflexivity. Qed.

(** X12.  Along every sequence of events no row is removed or moved and
    no first or second cell is written: the first two cells of the rows
    are those of the rows at the start, followed by one pair of empty
    editable cells per click on "add row"; the header is the one at the
    start until the first answer whose payload parses, and the one with
    the two output headings from then on. *)
Theorem rows_and_inputs_along_a_run (es : list event) (p : page) :
  Spec.regular (attack_table p) = true ->
  Spec.two_or_four (attack_table p) = true ->
  map (take 2) (tBody (attack_table (run es p)))
  = map (take 2) (tBody (attack_table p))
    ++ replicate (Spec.add_row_count es) [editable_cell; editable_cell] /\
  length (tBody (attack_table (run es p)))
  = (length (tBody (attack_table p)) + Spec.add_row_count es)%nat /\
  tHead (attack_table (run es p)) =
    (if existsb payload_parsed es then tHead (Spec.with_columns (attack_table p))
     else tHead (attack_table p)).
Proof.
  revert p. induction es as [|e es IH]; intros p Hreg H24.
  - cbn. rewrite app_nil_r. auto.
  - change (run (e :: es) p) with (run es (step e p)).
    destruct (step_columns JSON_parse JSON_stringify e p Hreg H24) as [Hreg' Hlen].
    assert (H24' : Spec.two_or_four (attack_table (step e p)) = true).
    { unfold Spec.two_or_four in *. rewrite Hlen.
      destruct (payload_parsed e); [reflexivity | exact H24]. }
    destruct (IH _ Hreg' H24') as (Hin & Hcount & Hhead).
    destruct (step_rows e p Hreg H24) as [Hin1 Hhead1].
    assert (Hrows : map (take 2) (tBody (attack_table (run es (step e p))))
              = map (take 2) (tBody (attack_table p))
                ++ replicate (Spec.add_row_count (e :: es))
                     [editable_cell; editable_cell]).
    { rewrite Hin, Hin1, <- app_assoc, <- replicate_add, <- add_row_count_cons.
      reflexivity. }
    split; [exact Hrows|]. split.
    + apply (f_equal length) in Hrows.
      rewrite length_app, !length_map, length_replicate in Hrows. exact Hrows.
    + rewrite Hhead. cbn [existsb].
      destruct (payload_parsed e) eqn:He; cbn [orb].
      * rewrite (with_columns_four _ Hlen), Hhead1.
        destruct (existsb _ es); reflexivity.
      * rewrite !with_columns_head, Hhead1. reflexivity.
Qed.

End Time.

(** ** Where the payload is read *)

Lemma Get_first (x : value) (rest : list value) :
  Get (VArray (x :: rest)) "0" = Normal x.
Proof.
  cbn [Get]. rewrite (proj2 (array_index_spec (length (x :: rest)) "0" 0)).
  - reflexivity.
  - split; [reflexivity | cbn; lia].
Qed.

Lemma Get_object (props : list (string * value)) (key : string) (v : value) :
  own_property props key = Some v -> Get (VObject props) key = Normal v.
Proof. intros H. cbn [Get]. rewrite H. reflexivity. Qed.

Section Payload.

Variable JSON_parse : value -> option value.

Local Abbreviation parse_response := (Script.parse_response JSON_parse).

(** X13.  The payload is the [text] of the first content item of the
    first output element, whatever else the body, the output list and
    the content list hold; what the handler goes on with is what
    [JSON.parse] makes of that text, and the one parse error when it
    makes nothing of it. *)
Theorem payload_is_first_text
    (props oprops cprops : list (string * value)) (outputs contents : list value)
    (payload : value) :
  own_property props "output" = Some (VArray (VObject oprops :: outputs)) ->
  own_property oprops "content" = Some (VArray (VObject cprops :: contents)) ->
  own_property cprops "text" = Some payload ->
  response_text (VObject props) = Normal payload /\
  parse_response (VObject props) =
    match JSON_parse payload with
    | Some parsed => Normal parsed
    | None => Throw (Error "Failed to parse AI response.")
    end.
Proof.
  intros Ho Hc Ht.
  assert (Htext : response_text (VObject props) = Normal payload).
  { unfold response_text, mbind, completion_bind.
    rewrite (Get_object _ _ _ Ho), Get_first, (Get_object _ _ _ Hc), Get_first.
    apply Get_object. exact Ht. }
  split; [exact Htext|]. unfold Script.parse_response. rewrite Htext.
  destruct (JSON_parse payload); reflexivity.
Qed.

End Payload.

(** ** The further properties at concrete pages *)

Lemma request_ignores_surrounding_white_space_witness :
  Script.submit_click Examples.JSON_stringify
    (Inputs ("  " +:+ "sk-test" +:+ " ") None) Examples.one_row
  = Script.submit_click Examples.JSON_stringify
      (Inputs "sk-test" (Some "https://llm.example/v1/responses")) Examples.one_row.
Proof.
  apply (proj1 (request_ignores_surrounding_white_space Examples.JSON_stringify));
    reflexivity.
Defined.

Lemma request_carries_trimmed_credential_witness :
  exists k,
    headers (Script.fetch_request Examples.JSON_stringify "sk-test"
               (prompt [SurfaceRow 0 "Login" "User login"]))
    = [ ("Content-Type", "application/json"); ("Authorization", "Bearer " +:+ k) ] /\
    is_empty k = false /\
    Spec.trimmed_of " sk-test  " k.
Proof.
  apply (request_carries_trimmed_credential Examples.JSON_stringify
           (Inputs " sk-test  " None) Examples.one_row).
  reflexivity.
Defined.

Lemma error_region_follows_clicks_and_failures_witness :
  errorDiv
    (Script.run Examples.JSON_parse Examples.JSON_stringify
       ([SubmitClick Examples.key]
        ++ SubmitClick (Inputs "  " None)
        :: [SubmitResponse
              (Response true (Examples.body_with Examples.forgery_text))])
       Examples.two_rows)
  = Spec.click_text (Inputs "  " None).
Proof.
  apply (proj1 (proj2 (proj2
           (error_region_follows_clicks_and_failures Examples.JSON_parse
              Examples.JSON_stringify)))).
  reflexivity.
Defined.

Lemma short_row_fails_silently_witness :
  Script.submit Examples.JSON_parse Examples.JSON_stringify Examples.key
    (fun _ => FetchRejected) Examples.short_page
  = (Page (attack_table Examples.short_page) (Text EmptyString), []).
Proof.
  apply (proj2 (short_row_fails_silently Examples.JSON_parse
                  Examples.JSON_stringify)); reflexivity.
Defined.

Lemma index_resolution_witness :
  rows_item (tBody (attack_table Examples.two_rows)) (VString "1") = Some 1%nat /\
  rows_item (tBody (attack_table Examples.two_rows)) (VNumber 1) = Some 1%nat.
Proof.
  split.
  - apply (proj1 (proj2 (index_resolution (tBody (attack_table Examples.two_rows)) 1))).
    split; [reflexivity | simpl; lia].
  - apply (proj1 (index_resolution (tBody (attack_table Examples.two_rows)) 1)).
    split; [reflexivity | simpl; lia].
Defined.

Lemma entry_rewrites_only_its_row_witness :
  Script.submit_response Examples.JSON_parse
    (Response true (Examples.body_with Examples.forgery_text)) Examples.two_rows
  = {| attack_table :=
         {| tHead := Spec.output_header Examples.header2;
            tBody := [ [Cell true "Login"; Cell true "User login";
                        Cell false "forgery"; Cell false "x"];
                       [Cell true "Upload"; Cell true "File upload";
                        new_cell; new_cell] ] |};
       errorDiv := Text EmptyString |}.
Proof.
  apply (entry_rewrites_only_its_row Examples.JSON_parse Examples.two_rows
           (Examples.body_with Examples.forgery_text) 0 [("forgery", "x")]);
    first [reflexivity | simpl; lia].
Defined.

Lemma failing_entry_writes_nothing_witness :
  Script.submit_response Examples.JSON_parse'
    (Response true (Examples.body_with Examples.null_threats_text)) Examples.two_rows
  = {| attack_table := Spec.after_entries (attack_table Examples.two_rows) [];
       errorDiv := HostText TypeError |}.
Proof.
  apply (proj1 (failing_entry_writes_nothing Examples.JSON_parse')
           Examples.two_rows (Examples.body_with Examples.null_threats_text)
           [] (VObject [("index", VNumber 0); ("threats", VNull)]) []);
    reflexivity.
Defined.

Lemma answer_handled_twice_witness :
  Script.submit_response Examples.JSON_parse
    (Response true (Examples.body_with Examples.stray_text))
    (Script.submit_response Examples.JSON_parse
       (Response true (Examples.body_with Examples.stray_text)) Examples.two_rows)
  = Script.submit_response Examples.JSON_parse
      (Response true (Examples.body_with Examples.stray_text)) Examples.two_rows.
Proof.
  apply (answer_handled_twice Examples.JSON_parse); reflexivity.
Defined.

Lemma entry_order_irrelevant_witness :
  Script.submit_response Examples.JSON_parse'
    (Response true (Examples.body_with Examples.both_text)) Examples.two_rows
  = Script.submit_response Examples.JSON_parse'
      (Response true (Examples.body_with Examples.both_swapped_text))
      Examples.two_rows.
Proof.
  apply (entry_order_irrelevant Examples.JSON_parse' Examples.two_rows
           (Examples.body_with Examples.both_text)
           (Examples.body_with Examples.both_swapped_text)
           [Spec.response_entry 1 []; Examples.entry 0 "forgery" "x"]
           [Examples.entry 0 "forgery" "x"; Spec.response_entry 1 []]);
    try reflexivity.
  - apply perm_swap.
  - vm_compute. apply NoDup_cons. split; [|apply NoDup_singleton].
    intros [H|H]%elem_of_cons; [discriminate H | inversion H].
Defined.

Lemma answer_reaches_row_added_meanwhile_witness :
  (exists tr,
      tBody (attack_table
               (Script.run Examples.JSON_parse Examples.JSON_stringify
                  [ SubmitClick Examples.key; AddRow;
                    SubmitResponse
                      (Response true (Examples.body_with Examples.forgery_text)) ]
                  Examples.empty_page))
        !! length (tBody (attack_table Examples.empty_page)) = Some tr /\
      Spec.cell_text 2 tr = Some (join LF (map fst [("forgery", "x")])) /\
      Spec.cell_text 3 tr = Some (join LF (map snd [("forgery", "x")]))) /\
  errorDiv
    (Script.run Examples.JSON_parse Examples.JSON_stringify
       [ SubmitClick Examples.key;
         SubmitResponse (Response true (Examples.body_with Examples.forgery_text)) ]
       Examples.empty_page)
  = HostText TypeError.
Proof.
  apply (answer_reaches_row_added_meanwhile Examples.JSON_parse
           Examples.JSON_stringify Examples.empty_page Examples.key
           (Examples.body_with Examples.forgery_text) [("forgery", "x")]);
    reflexivity.
Defined.

Lemma payload_not_an_array_witness :
  Script.submit_response Examples.JSON_parse
    (Response true (Examples.body_with "{}")) Examples.one_row
  = {| attack_table := Spec.with_columns (attack_table Examples.one_row);
       errorDiv := HostText TypeError |}.
Proof.
  apply (payload_not_an_array Examples.JSON_parse Examples.one_row
           (Examples.body_with "{}") (VObject []));
    first [reflexivity | intros items; discriminate].
Defined.

Lemma rows_and_inputs_along_a_run_witness :
  map (take 2)
    (tBody (attack_table
       (Script.run Examples.JSON_parse Examples.JSON_stringify
          [ AddRow; SubmitClick Examples.key;
            SubmitResponse (Response true (Examples.body_with Examples.forgery_text));
            AddRow ]
          Examples.one_row)))
  = map (take 2) (tBody (attack_table Examples.one_row))
    ++ replicate 2 [editable_cell; editable_cell].
Proof.
  apply (rows_and_inputs_along_a_run Examples.JSON_parse Examples.JSON_stringify
           [ AddRow; SubmitClick Examples.key;
             SubmitResponse (Response true (Examples.body_with Examples.forgery_text));
             AddRow ]
           Examples.one_row); reflexivity.
Defined.

Lemma payload_is_first_text_witness :
  response_text (Examples.body_with Examples.forgery_text)
  = Normal (VString Examples.forgery_text) /\
  Script.parse_response Examples.JSON_parse (Examples.body_with Examples.forgery_text)
  = Normal (VArray [Examples.entry 0 "forgery" "x"]).
Proof.
  apply (payload_is_first_text Examples.JSON_parse
           [("output",
              VArray [VObject [("content",
                VArray [VObject [("text", VString Examples.forgery_text)]])]])]
           [("content", VArray [VObject [("text", VString Examples.forgery_text)]])]
           [("text", VString Examples.forgery_text)] [] []
           (VString Examples.forgery_text));
    reflexivity.
Defined.
